(** * harsearch: the search-and-highlight engine of [harsearch/__main__.py]

    A shallow embedding of the HAR search tool and the properties of its
    specification.  Python values are an inductive type, [str] is a list of
    code points, indices are [Z] (they can be negative, and [str.find]
    answers [-1]), exceptions and the unbounded [while True] loop are an
    outcome type with a fuel-indexed loop, and [print] / [open] are recorded
    in a trace of events. *)

From Stdlib Require Import String Ascii.
From Stdlib Require Import ZArith NArith List Bool Lia.
From Stdlib Require Import Floats.SpecFloat.
From Stdlib Require DecimalString.
Import ListNotations.
Local Open Scope Z_scope.
Set Warnings "-register-all".

(** ** Python strings *)

(** A [str] is a sequence of Unicode code points. *)
Definition char := N.
Definition str := list char.

(** A string literal of the source. *)
Definition lit (s : string) : str := map N_of_ascii (list_ascii_of_string s).
Arguments lit s%_string.

(** [len(s)] *)
Definition len (s : str) : Z := Z.of_nat (length s).

(** How a slice bound is brought into [0, len]: a negative bound counts from
    the end, and both are clamped. *)
Definition clamp_index (n i : Z) : Z :=
  if i <? 0 then Z.max 0 (i + n) else Z.min i n.

(** [s[lo:hi]]; [None] is an omitted bound. *)
Definition slice (s : str) (lo hi : option Z) : str :=
  let n := len s in
  let a := match lo with None => 0 | Some i => clamp_index n i end in
  let b := match hi with None => n | Some j => clamp_index n j end in
  firstn (Z.to_nat (b - a)) (skipn (Z.to_nat a) s).

Definition str_eqb (a b : str) : bool :=
  if list_eq_dec N.eq_dec a b then true else false.

(** [s.startswith(sub)] *)
Fixpoint startswith (sub s : str) : bool :=
  match sub, s with
  | [], _ => true
  | _ :: _, [] => false
  | a :: sub', b :: s' => N.eqb a b && startswith sub' s'
  end.

(** The scan of [str.find]: [s] is the text from index [i] on. *)
Fixpoint find_from (sub s : str) (i : Z) : Z :=
  if startswith sub s then i
  else match s with
       | [] => -1
       | _ :: s' => find_from sub s' (i + 1)
       end.

(** [s.find(sub, start)]: the lowest index at or after [start] where [sub]
    occurs, or [-1]. *)
Definition find (s sub : str) (start : Z) : Z :=
  let n := len s in
  let st := if start <? 0 then Z.max 0 (start + n) else start in
  if n <? st then -1 else find_from sub (skipn (Z.to_nat st) s) st.

(** [sub in s] *)
Fixpoint str_contains (sub s : str) : bool :=
  startswith sub s ||
  match s with
  | [] => false
  | _ :: s' => str_contains sub s'
  end.

(** [sep.join(parts)] *)
Fixpoint join (sep : str) (parts : list str) : str :=
  match parts with
  | [] => []
  | [p] => p
  | p :: ps => p ++ sep ++ join sep ps
  end.

(** ** The values [json.load] returns *)

Inductive value : Type :=
| VNone
| VBool (b : bool)
| VInt (z : Z)
| VFloat (f : spec_float)
| VStr (s : str)
| VList (l : list value)
| VDict (d : list (str * value)).

(** A parsed object has one binding per key; a lookup takes the first. *)
Fixpoint lookup (k : str) (d : list (str * value)) : option value :=
  match d with
  | [] => None
  | (k', v) :: d' => if str_eqb k k' then Some v else lookup k d'
  end.

(** Truth value of [v] in a condition. *)
Definition truthy (v : value) : bool :=
  match v with
  | VNone => false
  | VBool b => b
  | VInt z => negb (z =? 0)
  | VFloat (S754_zero _) => false
  | VFloat _ => true
  | VStr s => match s with [] => false | _ => true end
  | VList l => match l with [] => false | _ => true end
  | VDict d => match d with [] => false | _ => true end
  end.

(** ** Exceptions and non-termination *)

Inductive exn : Type :=
| KeyError
| TypeError
| AttributeError
| OSError
| SystemExit (code : Z).

(** What running a piece of code gives: a value, an exception, or (for the
    [while True] loop run with too little fuel) no answer yet. *)
Inductive outcome (A : Type) : Type :=
| Ok (a : A)
| Raise (e : exn)
| Diverge.
Arguments Ok {A} a.
Arguments Raise {A} e.
Arguments Diverge {A}.

Definition obind {A B} (m : outcome A) (k : A -> outcome B) : outcome B :=
  match m with
  | Ok a => k a
  | Raise e => Raise e
  | Diverge => Diverge
  end.

Definition omap {A B} (f : A -> B) (m : outcome A) : outcome B :=
  obind m (fun a => Ok (f a)).

Declare Scope outcome_scope.
Delimit Scope outcome_scope with outcome.
Notation "'let*' x ':=' m 'in' k" := (obind m (fun x => k))
  (at level 10, x name, m at level 100, k at level 200) : outcome_scope.
Local Open Scope outcome_scope.

(** [for x in xs: acc.extend(f(x))], stopping at the first exception. *)
Fixpoint extend_each {A B} (f : A -> outcome (list B)) (xs : list A)
    (acc : list B) : outcome (list B) :=
  match xs with
  | [] => Ok acc
  | x :: xs' => let* ys := f x in extend_each f xs' (acc ++ ys)
  end.

(** [[f(x) for x in xs]], stopping at the first exception. *)
Fixpoint map_each {A B} (f : A -> outcome B) (xs : list A) : outcome (list B) :=
  match xs with
  | [] => Ok []
  | x :: xs' => let* y := f x in let* ys := map_each f xs' in Ok (y :: ys)
  end.

(** ** Dynamically typed operations on values *)

(** [v[k]] with a string key. *)
Definition getitem (v : value) (k : str) : outcome value :=
  match v with
  | VDict d => match lookup k d with Some x => Ok x | None => Raise KeyError end
  | _ => Raise TypeError
  end.

(** [k in v] with a string [k]. *)
Definition contains (k : str) (v : value) : outcome bool :=
  match v with
  | VDict d => Ok (match lookup k d with Some _ => true | None => false end)
  | VList l =>
      Ok (existsb (fun x => match x with VStr s => str_eqb s k | _ => false end) l)
  | VStr s => Ok (str_contains k s)
  | _ => Raise TypeError
  end.

(** [v.get(k, default)] *)
Definition dict_get (v : value) (k : str) (default : value) : outcome value :=
  match v with
  | VDict d => Ok (match lookup k d with Some x => x | None => default end)
  | _ => Raise AttributeError
  end.

(** The elements [for x in v] goes through. *)
Definition iterate (v : value) : outcome (list value) :=
  match v with
  | VList l => Ok l
  | VDict d => Ok (map (fun kv => VStr (fst kv)) d)
  | VStr s => Ok (map (fun c => VStr [c]) s)
  | _ => Raise TypeError
  end.

(** ** What the tool takes from Python's library *)

(** [str.lower] and the text [format] gives a value that is not a string.
    Lowering keeps the empty string empty and never shortens a string: every
    code point lowers to one code point or more. *)
Class Builtins : Type := {
  lower : str -> str;
  lower_nil : lower [] = [];
  lower_length : forall s, (length s <= length (lower s))%nat;
  repr : value -> str
}.

(** The [re] module: [re.compile(pattern, re.IGNORECASE)] gives a pattern
    object or the text of an [re.error]; [finditer] is described by the spans
    of its matches, in order; [re_search] tells whether [search] finds a
    match. *)
Class RegexEngine : Type := {
  Pattern : Type;
  re_compile : str -> Pattern + str;
  finditer : Pattern -> str -> list (Z * Z);
  re_search : Pattern -> str -> bool
}.

(** The three module-level colour strings. *)
Record palette : Type := {
  GREEN : str;
  BLUE : str;
  RESET : str
}.

(** With colorama: [Fore.GREEN], [Fore.BLUE], [Style.RESET_ALL]. *)
Definition esc : char := 27%N.
Definition colorama_palette : palette :=
  {| GREEN := esc :: lit "[32m"; BLUE := esc :: lit "[34m";
     RESET := esc :: lit "[0m" |}.

(** Without colorama: [GREEN = BLUE = RESET = ""]. *)
Definition plain_palette : palette :=
  {| GREEN := []; BLUE := []; RESET := [] |}.

(** [search_type] is ["request"] or ["response"], [field] is ["url"],
    ["headers"] or ["text"]: the constants of the argument parser. *)
Inductive direction : Type := Request | Response.
Inductive fld : Type := Url | Headers | Text.

Definition direction_key (d : direction) : str :=
  match d with
  | Request => lit "request"
  | Response => lit "response"
  end.

Definition direction_eqb (a b : direction) : bool :=
  match a, b with
  | Request, Request | Response, Response => true
  | _, _ => false
  end.

Definition fld_eqb (a b : fld) : bool :=
  match a, b with
  | Url, Url | Headers, Headers | Text, Text => true
  | _, _ => false
  end.

(** What a file name stands for when [load_har_file] opens it. *)
Inductive file : Type :=
| Absent
| Unreadable
| NotJson
| Json (v : value).

(** What the process does that can be observed. *)
Inductive event : Type :=
| EOpen (path : str)
| EPrint (line : str).

(** Not a function of the source: the spans the [while True] loop of the
    literal search goes through, without the rendering.  They depend on the
    lowered text, the lowered pattern and the length [m] of the pattern
    only; [literal_loop_spans] below relates the loop to them. *)
Fixpoint literal_spans (fuel : nat) (low_text low_pattern : str) (m : Z)
    (start_pos : Z) : outcome (list (Z * Z)) :=
  match fuel with
  | O => Diverge
  | S fuel' =>
      let pos := find low_text low_pattern start_pos in
      if pos =? -1 then Ok []
      else omap (cons (pos, pos + m))
             (literal_spans fuel' low_text low_pattern m (pos + m))
  end.

Section Engine.

Context {B : Builtins} {R : RegexEngine}.
Variable colors : palette.

(** [format(v, "")], as an f-string does it. *)
Definition format (v : value) : str :=
  match v with
  | VStr s => s
  | _ => repr v
  end.

(** The object [HARSearch.__init__] builds; [regex] is set only when
    [is_regex] is. *)
Record HARSearch : Type := {
  har_file : str;
  pattern : str;
  is_regex : bool;
  search_type : direction;
  field : fld;
  context_chars : Z;
  regex : option Pattern
}.

Variable self : HARSearch.

(** [f"{GREEN}URL: {url}{RESET}\n{body}"] *)
Definition match_record (url : value) (body : str) : str :=
  GREEN colors ++ lit "URL: " ++ format url ++ RESET colors ++ [10%N] ++ body.

(** The context window of a span: [search_text[context_start:context_end]]. *)
Definition context_window (search_text : str) (start end_ : Z) : str :=
  let context_start := Z.max 0 (start - context_chars self) in
  let context_end := Z.min (len search_text) (end_ + context_chars self) in
  slice search_text (Some context_start) (Some context_end).

(** The highlighted snippet of a span, the same in both branches of
    [search_in_text]: [match.group()] is [search_text[start:end]]. *)
Definition highlight (search_text : str) (start end_ : Z) : str :=
  let context_start := Z.max 0 (start - context_chars self) in
  let context := context_window search_text start end_ in
  slice context None (Some (start - context_start))
  ++ BLUE colors ++ slice search_text (Some start) (Some end_) ++ RESET colors
  ++ slice context (Some (end_ - context_start)) None.

(** The [while True] loop of the literal search, [fuel] iterations at most. *)
Fixpoint literal_loop (fuel : nat) (search_text : str) (url : value)
    (start_pos : Z) (matches : list str) : outcome (list str) :=
  match fuel with
  | O => Diverge
  | S fuel' =>
      let pos := find (lower search_text) (lower (pattern self)) start_pos in
      if pos =? -1 then Ok matches
      else
        let end_pos := pos + len (pattern self) in
        let highlighted := highlight search_text pos end_pos in
        literal_loop fuel' search_text url end_pos
          (matches ++ [match_record url highlighted])
  end.

(** The [for match in self.regex.finditer(search_text)] loop. *)
Fixpoint regex_loop (spans : list (Z * Z)) (search_text : str) (url : value)
    (matches : list str) : list str :=
  match spans with
  | [] => matches
  | (start, end_) :: spans' =>
      let highlighted := highlight search_text start end_ in
      regex_loop spans' search_text url
        (matches ++ [match_record url highlighted])
  end.

(** [search_in_text(self, text, url)] *)
Definition search_in_text (fuel : nat) (text url : value)
    : outcome (list str) :=
  let search_text := if truthy text then text else VStr [] in
  if is_regex self then
    match regex self with
    | None => Raise AttributeError
    | Some rx =>
        match search_text with
        | VStr s => Ok (regex_loop (finditer rx s) s url [])
        | _ => Raise TypeError
        end
    end
  else
    match search_text with
    | VStr s => literal_loop fuel s url 0 []
    | _ => Raise AttributeError
    end.

(** Not a function of the source: the text [search_in_text] searches and
    the spans it finds there; no colour string takes part. *)
Definition find_spans (fuel : nat) (text : value)
    : outcome (str * list (Z * Z)) :=
  let search_text := if truthy text then text else VStr [] in
  if is_regex self then
    match regex self with
    | None => Raise AttributeError
    | Some rx =>
        match search_text with
        | VStr s => Ok (s, finditer rx s)
        | _ => Raise TypeError
        end
    end
  else
    match search_text with
    | VStr s =>
        omap (pair s)
          (literal_spans fuel (lower s) (lower (pattern self))
             (len (pattern self)) 0)
    | _ => Raise AttributeError
    end.

(** The match record [search_in_text] appends for one span. *)
Definition render (search_text : str) (url : value) (span : Z * Z) : str :=
  match_record url (highlight search_text (fst span) (snd span)).

Definition render_all (url : value) (found : str * list (Z * Z)) : list str :=
  map (render (fst found) url) (snd found).

(** The body of the loop of [search_entries], for one entry. *)
Definition search_entry (fuel : nat) (entry : value) : outcome (list str) :=
  let* request := getitem entry (lit "request") in
  let* url := getitem request (lit "url") in
  let* target := getitem entry (direction_key (search_type self)) in
  if fld_eqb (field self) Url && direction_eqb (search_type self) Request then
    if is_regex self then
      match regex self with
      | None => Raise AttributeError
      | Some rx =>
          match url with
          | VStr u =>
              if re_search rx u
              then Ok [match_record url (BLUE colors ++ format url ++ RESET colors)]
              else Ok []
          | _ => Raise TypeError
          end
      end
    else
      match url with
      | VStr u =>
          if str_contains (lower (pattern self)) (lower u)
          then Ok [match_record url (BLUE colors ++ format url ++ RESET colors)]
          else Ok []
      | _ => Raise AttributeError
      end
  else if fld_eqb (field self) Headers then
    let* headers := dict_get target (lit "headers") (VList []) in
    let* hs := iterate headers in
    let* lines :=
      map_each (fun h =>
        let* name := getitem h (lit "name") in
        let* v := getitem h (lit "value") in
        Ok (format name ++ lit ": " ++ format v)) hs in
    search_in_text fuel (VStr (join [10%N] lines)) url
  else if fld_eqb (field self) Text then
    let* c := dict_get target (lit "content") (VDict []) in
    let* content := dict_get c (lit "text") (VStr []) in
    search_in_text fuel content url
  else Ok [].

End Engine.

(** ** The process: output, files and exit *)

(** A computation that prints and opens files: the events it caused, in
    order, and how it ended. *)
Definition M (A : Type) : Type := (list event * outcome A)%type.

Definition ret {A} (a : A) : M A := ([], Ok a).

Definition bind {A C} (m : M A) (k : A -> M C) : M C :=
  match m with
  | (t, Ok a) => let (t', r) := k a in (t ++ t', r)
  | (t, Raise e) => (t, Raise e)
  | (t, Diverge) => (t, Diverge)
  end.

Definition lift {A} (o : outcome A) : M A := ([], o).

(** [print(line)] *)
Definition print (line : str) : M unit := ([EPrint line], Ok tt).

(** [sys.exit(code)] *)
Definition sys_exit {A} (code : Z) : M A := ([], Raise (SystemExit code)).

Declare Scope proc_scope.
Delimit Scope proc_scope with proc.
Notation "x <- m ;; k" := (bind m (fun x => k))
  (at level 61, m at next level, right associativity) : proc_scope.
Notation "m ;; k" := (bind m (fun _ => k))
  (at level 61, right associativity) : proc_scope.
Local Open Scope proc_scope.

(** The exit status of the process: 0 when [main] returns, the code of
    [sys.exit], 1 after an exception nobody catches; none while it runs. *)
Definition exit_code {A} (m : M A) : option Z :=
  match snd m with
  | Ok _ => Some 0
  | Raise (SystemExit code) => Some code
  | Raise _ => Some 1
  | Diverge => None
  end.

Definition trace {A} (m : M A) : list event := fst m.

(** The lines printed, in order. *)
Fixpoint printed (t : list event) : list str :=
  match t with
  | [] => []
  | EPrint line :: t' => line :: printed t'
  | EOpen _ :: t' => printed t'
  end.

(** The files opened, in order. *)
Fixpoint opened (t : list event) : list str :=
  match t with
  | [] => []
  | EOpen path :: t' => path :: opened t'
  | EPrint _ :: t' => opened t'
  end.

(** What [parser.parse_args()] returns. *)
Record Namespace : Type := {
  args_har_file : str;
  args_pattern : str;
  args_regex : bool;
  args_search_type : option direction;
  args_field : option fld;
  args_context : Z
}.

Section Process.

Context {B : Builtins} {R : RegexEngine}.
Variable colors : palette.
Variable fs : str -> file.

(** [HARSearch.__init__] *)
Definition init (har_file pattern : str) (is_regex : bool)
    (search_type : direction) (field : fld) (context_chars : Z)
    : M HARSearch :=
  if is_regex then
    match re_compile pattern with
    | inl rx =>
        ret {| har_file := har_file; pattern := pattern; is_regex := is_regex;
               search_type := search_type; field := field;
               context_chars := context_chars; regex := Some rx |}
    | inr e =>
        print (lit "Invalid regular expression: " ++ e) ;; sys_exit 1
    end
  else
    ret {| har_file := har_file; pattern := pattern; is_regex := is_regex;
           search_type := search_type; field := field;
           context_chars := context_chars; regex := None |}.

(** [load_har_file(self)] *)
Definition load_har_file (self : HARSearch) : M value :=
  bind ([EOpen (har_file self)], Ok tt) (fun _ =>
  match fs (har_file self) with
  | Json v => ret v
  | Absent =>
      print (lit "Error: File '" ++ har_file self ++ lit "' not found.") ;;
      sys_exit 1
  | NotJson =>
      print (lit "Error: '" ++ har_file self ++ lit "' is not a valid JSON file.") ;;
      sys_exit 1
  | Unreadable => lift (Raise OSError)
  end).

(** ["log" not in har_data or "entries" not in har_data["log"]] *)
Definition missing_log_or_entries (har_data : value) : outcome bool :=
  let* has_log := contains (lit "log") har_data in
  if negb has_log then Ok true
  else
    let* log := getitem har_data (lit "log") in
    let* has_entries := contains (lit "entries") log in
    Ok (negb has_entries).

(** [har_data["log"]["entries"]], as the [for] loop goes through it. *)
Definition log_entries (har_data : value) : outcome (list value) :=
  let* log := getitem har_data (lit "log") in
  let* entries := getitem log (lit "entries") in
  iterate entries.

(** [search_entries(self)] *)
Definition search_entries (self : HARSearch) (fuel : nat) : M (list str) :=
  har_data <- load_har_file self ;;
  missing <- lift (missing_log_or_entries har_data) ;;
  if (missing : bool) then
    print (lit "Error: Invalid HAR file format - missing log or entries.") ;;
    ret []
  else
    entries <- lift (log_entries har_data) ;;
    lift (extend_each (search_entry colors self fuel) entries []).

(** The separator between two matches: ["\n" + "-" * 80 + "\n"]. *)
Definition separator : str := [10%N] ++ repeat 45%N 80 ++ [10%N].

(** The loop of [print_results]: [i] is the index [enumerate] gives. *)
Fixpoint print_from (i n : Z) (matches : list str) : M unit :=
  match matches with
  | [] => ret tt
  | m :: matches' =>
      print m ;;
      (if negb (i =? n - 1) then print separator else ret tt) ;;
      print_from (i + 1) n matches'
  end.

(** [print_results(self, matches)] *)
Definition print_results (matches : list str) : M unit :=
  print_from 0 (Z.of_nat (length matches)) matches.

(** [main()], from the parsed arguments on. *)
Definition main (fuel : nat) (args : Namespace) : M unit :=
  match args_search_type args with
  | None =>
      print (lit "Error: You must specify either -req or -res") ;; sys_exit 1
  | Some st =>
      match args_field args with
      | None =>
          print (lit "Error: You must specify one of -url, -headers, or -text") ;;
          sys_exit 1
      | Some f =>
          if fld_eqb f Url && negb (direction_eqb st Request) then
            print (lit "Error: -url can only be used with -req") ;; sys_exit 1
          else
            har_search <- init (args_har_file args) (args_pattern args)
                            (args_regex args) st f (args_context args) ;;
            matches <- search_entries har_search fuel ;;
            match matches with
            | [] => print (lit "No matches found.")
            | _ :: _ => print_results matches
            end
      end
  end.

End Process.

(** ** Instances to run the tool on concrete inputs *)

(** [str.lower] on the code points this development runs it on: the capital
    letters of ASCII and Latin-1 lower by adding 32, and U+0130 (capital I
    with dot above) lowers to the two code points U+0069 U+0307, the one
    unconditional lowering in Unicode that is longer than its source.  Every
    other code point is kept, as Python does for uncased ones. *)
Definition lower_cp (c : char) : list char :=
  if ((65 <=? c) && (c <=? 90))%N then [(c + 32)%N]
  else if ((192 <=? c) && (c <=? 222) && negb (c =? 215))%N then [(c + 32)%N]
  else if (c =? 304)%N then [105%N; 775%N]
  else [c].

Definition str_lower (s : str) : str := flat_map lower_cp s.

(** [str(v)] for [None], booleans and integers; the other values are not
    formatted by any run below and print as an ellipsis here. *)
Definition scalar_repr (v : value) : str :=
  match v with
  | VNone => lit "None"
  | VBool true => lit "True"
  | VBool false => lit "False"
  | VInt z => lit (DecimalString.NilZero.string_of_int (Z.to_int z))
  | VStr s => s
  | _ => lit "..."
  end.

#[export, refine] Instance python_builtins : Builtins :=
  {| lower := str_lower;
     lower_nil := eq_refl;
     lower_length := _;
     repr := scalar_repr |}.
Proof.
  assert (H : forall c, (1 <= length (lower_cp c))%nat).
  { intros c. unfold lower_cp.
    repeat match goal with |- context [if ?b then _ else _] => destruct b end;
      simpl; lia. }
  induction s as [|c s IH]; simpl; [lia|].
  rewrite length_app. specialize (H c). lia.
Defined.

(** A small regular-expression engine for the patterns made of characters,
    [.] and a postfix [*] on one of them, matched as [re] does with
    [re.IGNORECASE]: backtracking, a greedy star, the leftmost match first.
    Patterns with other operators are outside it: [mini_compile] answers an
    error for them where Python would compile them. *)
Inductive atom : Type := Lit (c : char) | Dot.
Inductive piece : Type := One (a : atom) | Many (a : atom).

(** The simple (one code point) lowering [re.IGNORECASE] compares with. *)
Definition simple_lower (c : char) : char :=
  if ((65 <=? c) && (c <=? 90))%N then (c + 32)%N
  else if ((192 <=? c) && (c <=? 222) && negb (c =? 215))%N then (c + 32)%N
  else if (c =? 304)%N then 105%N
  else c.

Definition atom_matches (a : atom) (c : char) : bool :=
  match a with
  | Lit x => (simple_lower c =? simple_lower x)%N
  | Dot => negb (c =? 10)%N
  end.

(** The lengths of the matches of [p] at the start of [s], in the order a
    backtracking matcher finds them; [consumed] counts what is matched. *)
Fixpoint ends (p : list piece) (s : str) (consumed : nat) : list nat :=
  match p with
  | [] => [consumed]
  | One a :: p' =>
      match s with
      | c :: s' => if atom_matches a c then ends p' s' (S consumed) else []
      | [] => []
      end
  | Many a :: p' =>
      (fix star (s : str) (consumed : nat) : list nat :=
         match s with
         | c :: s' =>
             (if atom_matches a c then star s' (S consumed) else [])
             ++ ends p' s consumed
         | [] => ends p' [] consumed
         end) s consumed
  end.

(** The scanner behind [finditer]: [s] is the text from index [i] on; after
    an empty match the next one at the same index must not be empty. *)
Fixpoint scan (fuel : nat) (p : list piece) (s : str) (i : Z)
    (must_advance : bool) : list (Z * Z) :=
  match fuel with
  | O => []
  | S fuel' =>
      match List.find (fun e => negb must_advance || (0 <? e)%nat) (ends p s 0) with
      | Some e =>
          (i, i + Z.of_nat e)
          :: scan fuel' p (skipn e s) (i + Z.of_nat e) (e =? 0)%nat
      | None =>
          match s with
          | [] => []
          | _ :: s' => scan fuel' p s' (i + 1) false
          end
      end
  end.

Definition mini_finditer (p : list piece) (s : str) : list (Z * Z) :=
  scan (2 * length s + 2) p s 0 false.

Definition mini_search (p : list piece) (s : str) : bool :=
  match mini_finditer p s with
  | [] => false
  | _ :: _ => true
  end.

Definition is_operator (c : char) : bool :=
  existsb (N.eqb c) (lit "\^$+?{}[]()|").

Definition position (i : nat) : str :=
  lit (DecimalString.NilZero.string_of_uint (Nat.to_uint i)).

(** The parser of the fragment; [i] is the index of the next character. *)
Fixpoint mini_parse (s : str) (i : nat) : list piece + str :=
  match s with
  | [] => inl []
  | c :: s' =>
      if (c =? 42)%N then inr (lit "nothing to repeat at position " ++ position i)
      else if is_operator c then inr (lit "outside the fragment")
      else
        let a := if (c =? 46)%N then Dot else Lit c in
        match s' with
        | d :: s'' =>
            if (d =? 42)%N then
              match s'' with
              | e :: _ =>
                  if (e =? 42)%N
                  then inr (lit "multiple repeat at position " ++ position (i + 2))
                  else match mini_parse s'' (i + 2) with
                       | inl p => inl (Many a :: p)
                       | inr msg => inr msg
                       end
              | [] => inl [Many a]
              end
            else match mini_parse s' (i + 1) with
                 | inl p => inl (One a :: p)
                 | inr msg => inr msg
                 end
        | [] => inl [One a]
        end
  end.

#[export] Instance mini_re : RegexEngine :=
  {| Pattern := list piece;
     re_compile := fun s => mini_parse s 0;
     finditer := mini_finditer;
     re_search := mini_search |}.

(** ASCII lowering: the capital letters A to Z only. *)
Definition ascii_lower (s : str) : str :=
  map (fun c => if ((65 <=? c) && (c <=? 90))%N then (c + 32)%N else c) s.

Definition ascii_builtins : Builtins :=
  {| lower := ascii_lower;
     lower_nil := eq_refl;
     lower_length := fun s => eq_ind_r (fun n => (length s <= n)%nat)
                                (le_n _) (length_map _ s);
     repr := scalar_repr |}.

(** ** The notions the properties are stated with *)

(** The number of non-overlapping occurrences of [p] in [s], taken leftmost
    first: [skip] characters are still covered by the last occurrence. *)
Fixpoint count_skip (p : str) (skip : nat) (s : str) : nat :=
  match s with
  | [] => O
  | _ :: s' =>
      match skip with
      | S k => count_skip p k s'
      | O =>
          if startswith p s then S (count_skip p (length p - 1) s')
          else count_skip p 0 s'
      end
  end.

Definition count_nonoverlapping (p s : str) : nat := count_skip p 0 s.

(** The same count read on the text itself: an occurrence at an index is a
    piece of the text, as long as the pattern, that lowers to the lowered
    pattern. *)
Fixpoint count_caseless_skip {B : Builtins} (p : str) (skip : nat) (s : str)
    : nat :=
  match s with
  | [] => O
  | _ :: s' =>
      match skip with
      | S k => count_caseless_skip p k s'
      | O =>
          if (length p <=? length s)%nat
             && str_eqb (lower (firstn (length p) s)) (lower p)
          then S (count_caseless_skip p (length p - 1) s')
          else count_caseless_skip p 0 s'
      end
  end.

(** [__init__] sets [regex] whenever [is_regex] is set. *)
Definition regex_ready {R : RegexEngine} (self : HARSearch) : Prop :=
  is_regex self = true -> exists rx, regex self = Some rx.

(** Whether the URL test of [search_entries] succeeds on the URL [u]. *)
Definition url_found {B : Builtins} {R : RegexEngine} (self : HARSearch)
    (u : str) : bool :=
  if is_regex self then
    match regex self with
    | Some rx => re_search rx u
    | None => false
    end
  else str_contains (lower (pattern self)) (lower u).

(** The URL line followed by the whole URL between the markers. *)
Definition whole_url_record (colors : palette) (u : str) : str :=
  GREEN colors ++ lit "URL: " ++ u ++ RESET colors ++ [10%N]
  ++ BLUE colors ++ u ++ RESET colors.



(** The entry is an object with a [request] object that has a [url], and
    with an object under the key of the searched direction. *)
Definition well_shaped (d : direction) (entry : value) : bool :=
  match entry with
  | VDict e =>
      match lookup (lit "request") e with
      | Some (VDict r) =>
          match lookup (lit "url") r with
          | Some _ =>
              match lookup (direction_key d) e with
              | Some (VDict _) => true
              | _ => false
              end
          | None => false
          end
      | _ => false
      end
  | _ => false
  end.

(** What [main] checks before it builds the object: [-url] goes with
    [-req] only. *)
Definition valid_config {R : RegexEngine} (self : HARSearch) : Prop :=
  field self = Url -> search_type self = Request.

(** The exceptions an entry of the wrong shape ends in. *)
Definition shape_error (e : exn) : Prop :=
  e = KeyError \/ e = TypeError \/ e = AttributeError.

Definition missing_keys_message : str :=
  lit "Error: Invalid HAR file format - missing log or entries.".

(** ** Inputs to run the tool on *)

(** The headers line of one header, and an entry, as [json.load] gives them. *)
Definition header (name v : string) : value :=
  VDict [(lit "name", VStr (lit name)); (lit "value", VStr (lit v))].

Definition side (url : string) (headers : list value) (text : string) : value :=
  VDict [(lit "url", VStr (lit url)); (lit "headers", VList headers);
         (lit "content", VDict [(lit "text", VStr (lit text))])].

Definition har (entries : list value) : value :=
  VDict [(lit "log", VDict [(lit "entries", VList entries)])].

(** The object [HARSearch(har_file, pattern, False, ...)] builds. *)
Definition literal_search {R : RegexEngine} (har_file pattern : str)
    (search_type : direction) (field : fld) (context_chars : Z) : HARSearch :=
  {| har_file := har_file; pattern := pattern; is_regex := false;
     search_type := search_type; field := field;
     context_chars := context_chars; regex := None |}.

Definition example_entry : value :=
  VDict [(lit "request", side "http://example.com/api" [] "");
         (lit "response", side "http://example.com/api" [] "hello")].

Definition one_entry_har : value := har [example_entry].

Definition empty_pattern_args : Namespace :=
  {| args_har_file := lit "example.har"; args_pattern := [];
     args_regex := false; args_search_type := Some Response;
     args_field := Some Text; args_context := 50 |}.

(** U+0307 (combining dot above) and U+0130 (capital I with dot above). *)
Definition dot_above : char := 775%N.
Definition capital_I_dot : char := 304%N.


(** The pattern object of [re.compile(".*", re.IGNORECASE)]. *)
Definition dot_star_search (search_type : direction) (field : fld)
    (context_chars : Z) : HARSearch :=
  {| har_file := lit "example.har"; pattern := lit ".*"; is_regex := true;
     search_type := search_type; field := field;
     context_chars := context_chars; regex := Some [Many Dot] |}.

(** An entry whose response is a string. *)
Definition string_response_entry : value :=
  VDict [(lit "request", VDict [(lit "url", VStr (lit "http://example.com/api"))]);
         (lit "response", VStr (lit "gone"))].

Definition text_search_args : Namespace :=
  {| args_har_file := lit "example.har"; args_pattern := lit "password";
     args_regex := false; args_search_type := Some Response;
     args_field := Some Text; args_context := 50 |}.

Definition url_response_args : Namespace :=
  {| args_har_file := lit "example.har"; args_pattern := lit "example.com";
     args_regex := false; args_search_type := Some Response;
     args_field := Some Url; args_context := 50 |}.

Definition show (s : str) : string := string_of_list_ascii (map ascii_of_N s).

(** ** Notions for the further properties *)

(** [xs] with [sep] between two neighbours. *)
Fixpoint intersperse {A} (sep : A) (xs : list A) : list A :=
  match xs with
  | [] => []
  | [x] => [x]
  | x :: xs' => x :: sep :: intersperse sep xs'
  end.


(** Spans of width [m] that go from left to right, the first at or after
    [from], each at or after the end of the one before. *)
Fixpoint left_to_right (m from : Z) (spans : list (Z * Z)) : Prop :=
  match spans with
  | [] => True
  | (a, b) :: spans' => from <= a /\ b = a + m /\ left_to_right m b spans'
  end.

(** The line [f"{h['name']}: {h['value']}"] of a header. *)
Definition header_line (name v : str) : str := name ++ lit ": " ++ v.

(** A header object with a string name and a string value. *)
Definition is_header (h : value) (name v : str) : Prop :=
  getitem h (lit "name") = Ok (VStr name) /\
  getitem h (lit "value") = Ok (VStr v).

(** What [main] prints for the matches of a search that returned. *)
Definition report (matches : list str) : list event :=
  match matches with
  | [] => [EPrint (lit "No matches found.")]
  | _ :: _ => map EPrint (intersperse separator matches)
  end.

(** The checks of [main] on the parsed arguments pass. *)
Definition accepted (args : Namespace) (st : direction) (f : fld) : Prop :=
  args_search_type args = Some st /\ args_field args = Some f /\
  (f = Url -> st = Request).


Definition hello_args : Namespace :=
  {| args_har_file := lit "example.har"; args_pattern := lit "HELLO";
     args_regex := false; args_search_type := Some Response;
     args_field := Some Text; args_context := 50 |}.

(** An entry whose request has two headers. *)
Definition headers_entry : value :=
  VDict [(lit "request",
          side "http://example.com/api"
            [header "Host" "example.com"; header "Accept" "*/*"] "");
         (lit "response", side "http://example.com/api" [] "hello")].


(** ** Slices *)

Lemma firstn_plus_skipn {A} (m k : nat) (l : list A) :
  firstn m l ++ firstn k (skipn m l) = firstn (m + k) l.
Proof.
  revert l; induction m as [|m IH]; intros [|x l]; simpl;
    try reflexivity.
  - now rewrite firstn_nil.
  - now rewrite IH.
Qed.

Lemma len_nonneg (s : str) : 0 <= len s.
Proof. unfold len; lia. Qed.

Lemma slice_inside (s : str) (a b : Z) :
  0 <= a <= b -> b <= len s ->
  slice s (Some a) (Some b)
  = firstn (Z.to_nat (b - a)) (skipn (Z.to_nat a) s).
Proof.
  intros Hab Hb. unfold slice, clamp_index.
  destruct (Z.ltb_spec a 0), (Z.ltb_spec b 0); try lia.
  now rewrite !Z.min_l by lia.
Qed.

Lemma len_slice_inside (s : str) (a b : Z) :
  0 <= a <= b -> b <= len s -> len (slice s (Some a) (Some b)) = b - a.
Proof.
  intros Hab Hb. rewrite slice_inside by assumption.
  unfold len in *. rewrite length_firstn, length_skipn. lia.
Qed.

Lemma slice_app (s : str) (a b c : Z) :
  0 <= a <= b -> b <= c -> c <= len s ->
  slice s (Some a) (Some b) ++ slice s (Some b) (Some c)
  = slice s (Some a) (Some c).
Proof.
  intros Hab Hbc Hc. rewrite !slice_inside by lia.
  replace (Z.to_nat b) with (Z.to_nat (b - a) + Z.to_nat a)%nat by lia.
  rewrite <- skipn_skipn, firstn_plus_skipn. f_equal. lia.
Qed.

Lemma slice_whole (s : str) : slice s (Some 0) (Some (len s)) = s.
Proof.
  rewrite slice_inside by (pose proof (len_nonneg s); lia).
  simpl. unfold len. rewrite Z.sub_0_r, Nat2Z.id. apply firstn_all.
Qed.

Lemma slice_prefix_of_slice (s : str) (a b k : Z) :
  0 <= a <= b -> b <= len s -> 0 <= k <= b - a ->
  slice (slice s (Some a) (Some b)) None (Some k) = slice s (Some a) (Some (a + k)).
Proof.
  intros Hab Hb Hk.
  assert (Hl : len (slice s (Some a) (Some b)) = b - a)
    by now apply len_slice_inside.
  unfold slice at 1. rewrite Hl. unfold clamp_index.
  destruct (Z.ltb_spec k 0); [lia|]. rewrite Z.min_l by lia.
  simpl skipn. rewrite Z.sub_0_r.
  rewrite !slice_inside by lia.
  rewrite firstn_firstn. f_equal. lia.
Qed.

Lemma slice_suffix_of_slice (s : str) (a b k : Z) :
  0 <= a <= b -> b <= len s -> 0 <= k <= b - a ->
  slice (slice s (Some a) (Some b)) (Some k) None = slice s (Some (a + k)) (Some b).
Proof.
  intros Hab Hb Hk.
  assert (Hl : len (slice s (Some a) (Some b)) = b - a)
    by now apply len_slice_inside.
  unfold slice at 1. rewrite Hl. unfold clamp_index.
  destruct (Z.ltb_spec k 0); [lia|]. rewrite Z.min_l by lia.
  rewrite !slice_inside by lia.
  rewrite skipn_firstn_comm, skipn_skipn.
  rewrite firstn_firstn. f_equal; [lia|]. f_equal. lia.
Qed.

(** ** The context window and the highlighted snippet *)

Section Window.

Context {B : Builtins} {R : RegexEngine}.
Variable colors : palette.
Variable self : HARSearch.

Let n := context_chars self.

(** The bounds of the window of a span that lies in the text. *)
Lemma window_bounds (text : str) (start end_ : Z) :
  0 <= n -> 0 <= start <= end_ -> end_ <= len text ->
  let context_start := Z.max 0 (start - n) in
  let context_end := Z.min (len text) (end_ + n) in
  0 <= context_start <= start /\ start - context_start <= n /\
  end_ <= context_end <= len text /\ context_end - end_ <= n.
Proof. intros; subst n; lia. Qed.

(** The three slices [highlight] takes are the text before the match, the
    match and the text after it, all three slices of the text itself. *)
Lemma highlight_parts (text : str) (start end_ : Z) :
  0 <= n -> 0 <= start <= end_ -> end_ <= len text ->
  let context_start := Z.max 0 (start - n) in
  let context_end := Z.min (len text) (end_ + n) in
  highlight colors self text start end_
  = slice text (Some context_start) (Some start)
    ++ BLUE colors ++ slice text (Some start) (Some end_) ++ RESET colors
    ++ slice text (Some end_) (Some context_end).
Proof.
  intros Hn Hse He cs ce.
  destruct (window_bounds text start end_ Hn Hse He) as (H1 & H2 & H3 & H4).
  fold cs ce in H1, H2, H3, H4.
  unfold highlight, context_window. fold n cs ce.
  rewrite slice_prefix_of_slice, slice_suffix_of_slice by lia.
  repeat f_equal; lia.
Qed.

End Window.

(** C5. For a span [start, end) of a text and a non-negative
    [context_chars], the context window is
    [text[max(0, start - context_chars) : min(len(text), end + context_chars)]]:
    its bounds stay inside the text, so it is a contiguous piece of it; it
    is the text before the match, the match, and the text after the match,
    and neither side is longer than [context_chars]. *)
Theorem context_window_bounded {R : RegexEngine} (self : HARSearch)
    (text : str) (start end_ : Z) :
  0 <= context_chars self -> 0 <= start <= end_ -> end_ <= len text ->
  let context_start := Z.max 0 (start - context_chars self) in
  let context_end := Z.min (len text) (end_ + context_chars self) in
  let before := slice text (Some context_start) (Some start) in
  let after := slice text (Some end_) (Some context_end) in
  context_window self text start end_
    = slice text (Some context_start) (Some context_end) /\
  0 <= context_start <= start /\ end_ <= context_end <= len text /\
  context_window self text start end_
    = before ++ slice text (Some start) (Some end_) ++ after /\
  len before <= context_chars self /\ len after <= context_chars self /\
  text = firstn (Z.to_nat context_start) text
         ++ context_window self text start end_
         ++ skipn (Z.to_nat context_end) text.
Proof.
  intros Hn Hse He cs ce before after.
  assert (Hb : 0 <= cs <= start /\ start - cs <= context_chars self /\
               end_ <= ce <= len text /\ ce - end_ <= context_chars self)
    by (subst cs ce; lia).
  destruct Hb as (H1 & H2 & H3 & H4).
  assert (Hw : context_window self text start end_
               = slice text (Some cs) (Some ce)) by reflexivity.
  repeat split; try lia; try exact Hw.
  - rewrite Hw. subst before after.
    rewrite !slice_app by lia. reflexivity.
  - subst before. rewrite len_slice_inside by lia. lia.
  - subst after. rewrite len_slice_inside by lia. lia.
  - rewrite Hw, slice_inside by lia.
    rewrite <- (firstn_skipn (Z.to_nat cs) text) at 1. f_equal.
    rewrite <- (firstn_skipn (Z.to_nat (ce - cs)) (skipn (Z.to_nat cs) text)) at 1.
    f_equal. rewrite skipn_skipn. f_equal. lia.
Qed.

(** ** Spans and rendering, apart *)

Section Spans.

Context {B : Builtins} {R : RegexEngine}.
Variable self : HARSearch.

Variable colors : palette.

Lemma literal_loop_spans (fuel : nat) (s : str) (url : value) (start_pos : Z)
    (matches : list str) :
  literal_loop colors self fuel s url start_pos matches
  = omap (fun spans => matches ++ map (render colors self s url) spans)
      (literal_spans fuel (lower s) (lower (pattern self))
         (len (pattern self)) start_pos).
Proof.
  revert start_pos matches; induction fuel as [|fuel IH]; intros; simpl.
  - reflexivity.
  - destruct (_ =? -1).
    + simpl. now rewrite app_nil_r.
    + rewrite IH.
      destruct (literal_spans fuel _ _ _ _); simpl; try reflexivity.
      now rewrite <- app_assoc.
Qed.

Lemma regex_loop_spans (spans : list (Z * Z)) (s : str) (url : value)
    (matches : list str) :
  regex_loop colors self spans s url matches
  = matches ++ map (render colors self s url) spans.
Proof.
  revert matches; induction spans as [|[a b] spans IH]; intros; simpl.
  - now rewrite app_nil_r.
  - rewrite IH, <- app_assoc. reflexivity.
Qed.

Lemma search_in_text_spans (fuel : nat) (text url : value) :
  search_in_text colors self fuel text url
  = omap (render_all colors self url) (find_spans self fuel text).
Proof.
  unfold search_in_text, find_spans.
  destruct (is_regex self).
  - destruct (regex self); [|reflexivity].
    destruct (if truthy text then text else VStr []); try reflexivity.
    simpl. now rewrite regex_loop_spans.
  - destruct (if truthy text then text else VStr []); try reflexivity.
    rewrite literal_loop_spans.
    destruct (literal_spans _ _ _ _ _); reflexivity.
Qed.

End Spans.

(** C9. For every text and pattern, literal or regular expression, the two
    runs with two sets of colour strings (the ANSI codes of colorama, or
    empty strings) search the same text and find the same spans: each run's
    matches are the renderings, with its own colours, of one list of spans
    that is computed without the colours; so both runs find the same number
    of matches, raise the same exception or both do not end. *)
Theorem colors_do_not_change_spans {B : Builtins} {R : RegexEngine}
    (colors1 colors2 : palette) (self : HARSearch) (fuel : nat)
    (text url : value) :
  search_in_text colors1 self fuel text url
    = omap (render_all colors1 self url) (find_spans self fuel text) /\
  search_in_text colors2 self fuel text url
    = omap (render_all colors2 self url) (find_spans self fuel text) /\
  omap (@length str) (search_in_text colors1 self fuel text url)
    = omap (@length str) (search_in_text colors2 self fuel text url).
Proof.
  rewrite !search_in_text_spans. repeat split.
  destruct (find_spans self fuel text) as [[s spans]| |]; simpl; try reflexivity.
  unfold render_all. now rewrite !length_map.
Qed.

(** ** Counting occurrences *)

Lemma count_skip_skipn (p : str) (k : nat) (s : str) :
  count_skip p k s = count_skip p 0 (skipn k s).
Proof.
  revert s; induction k as [|k IH]; intros s; [reflexivity|].
  destruct s as [|c s]; [reflexivity|]. simpl. apply IH.
Qed.

Lemma startswith_nil_r (p : str) : p <> [] -> startswith p [] = false.
Proof. destruct p; [congruence|reflexivity]. Qed.

Lemma find_from_spec (p t : str) (i : Z) :
  p <> [] ->
  (find_from p t i = -1 /\ count_skip p 0 t = O) \/
  (exists k, (k < length t)%nat /\ find_from p t i = i + Z.of_nat k /\
             startswith p (skipn k t) = true /\
             count_skip p 0 t = count_skip p 0 (skipn k t)).
Proof.
  intros Hp. revert i; induction t as [|c t IH]; intros i.
  - left. simpl. now rewrite startswith_nil_r.
  - cbn [find_from]. destruct (startswith p (c :: t)) eqn:E.
    + right. exists O. simpl. repeat split; try lia. exact E.
    + destruct (IH (i + 1)) as [[H1 H2]|(k & Hk & H1 & H2 & H3)].
      * left. split; [exact H1|]. cbn [count_skip]. now rewrite E.
      * right. exists (S k). cbn [count_skip skipn length]. rewrite E.
        repeat split; try lia; assumption.
Qed.

Lemma literal_spans_count (p s : str) (fuel i : nat) :
  p <> [] -> (length s - i < fuel)%nat ->
  exists spans,
    literal_spans fuel s p (len p) (Z.of_nat i) = Ok spans /\
    length spans = count_skip p 0 (skipn i s).
Proof.
  intros Hp. revert i; induction fuel as [|fuel IH]; intros i Hf; [lia|].
  cbn [literal_spans]. unfold find.
  destruct (Z.ltb_spec (Z.of_nat i) 0) as [?|_]; [lia|].
  destruct (Z.ltb_spec (len s) (Z.of_nat i)) as [Hout|Hin].
  - exists []. split; [reflexivity|].
    rewrite skipn_all2 by (unfold len in Hout; lia). reflexivity.
  - rewrite Nat2Z.id.
    destruct (find_from_spec p (skipn i s) (Z.of_nat i) Hp)
      as [[H1 H2]|(k & Hk & H1 & H2 & H3)].
    + rewrite H1. exists []. split; [reflexivity|]. now rewrite H2.
    + rewrite H1. rewrite length_skipn in Hk.
      destruct (Z.eqb_spec (Z.of_nat i + Z.of_nat k) (-1)) as [?|_]; [lia|].
      assert (Hlen : (1 <= length p)%nat)
        by (destruct p; [congruence|simpl; lia]).
      destruct (IH (i + k + length p)%nat) as (spans & Hs & Hc); [lia|].
      replace (Z.of_nat i + Z.of_nat k + len p)
        with (Z.of_nat (i + k + length p)) by (unfold len; lia).
      rewrite Hs. exists ((Z.of_nat i + Z.of_nat k,
                           Z.of_nat (i + k + length p)) :: spans).
      split; [reflexivity|]. cbn [length]. rewrite Hc, H3.
      rewrite skipn_skipn in H2 |- *.
      destruct (skipn (k + i) s) as [|c u] eqn:E.
      * now rewrite startswith_nil_r in H2.
      * cbn [count_skip]. rewrite H2. f_equal.
        rewrite (count_skip_skipn p (length p - 1) u).
        replace (i + k + length p)%nat
          with ((length p - 1) + (1 + (k + i)))%nat by lia.
        rewrite <- (skipn_skipn (length p - 1) (1 + (k + i)) s).
        rewrite <- (skipn_skipn 1 (k + i) s), E. reflexivity.
Qed.

(** More fuel does not change a result. *)
Lemma literal_spans_more_fuel (fuel k : nat) (s p : str) (m start_pos : Z)
    (spans : list (Z * Z)) :
  literal_spans fuel s p m start_pos = Ok spans ->
  literal_spans (fuel + k) s p m start_pos = Ok spans.
Proof.
  revert start_pos spans; induction fuel as [|fuel IH]; intros st spans;
    [discriminate|].
  cbn [literal_spans Nat.add]. destruct (_ =? -1); [trivial|].
  destruct (literal_spans fuel s p m _) eqn:E; try discriminate.
  rewrite (IH _ _ E). trivial.
Qed.

Section Literal.

Context {B : Builtins} {R : RegexEngine}.
Variable colors : palette.
Variable self : HARSearch.

Lemma search_text_of_str (s : str) :
  (if truthy (VStr s) then VStr s else VStr []) = VStr s.
Proof. now destruct s. Qed.

Lemma search_in_text_literal (fuel : nat) (s : str) (url : value) :
  is_regex self = false ->
  search_in_text colors self fuel (VStr s) url
  = literal_loop colors self fuel s url 0 [].
Proof.
  intros H. unfold search_in_text. now rewrite H, search_text_of_str.
Qed.

Lemma search_in_text_more_fuel (fuel k : nat) (text url : value)
    (matches : list str) :
  search_in_text colors self fuel text url = Ok matches ->
  search_in_text colors self (fuel + k) text url = Ok matches.
Proof.
  rewrite !search_in_text_spans. unfold find_spans.
  destruct (is_regex self); [trivial|].
  destruct (if truthy text then text else VStr []); trivial.
  destruct (literal_spans fuel _ _ _ _) eqn:E; try discriminate.
  now rewrite (literal_spans_more_fuel _ k _ _ _ _ _ E).
Qed.

(** With an empty pattern [find] answers the start position itself, the
    position does not move, and the loop goes on. *)
Lemma literal_loop_empty_pattern (fuel : nat) (s : str) (url : value)
    (matches : list str) :
  pattern self = [] ->
  literal_loop colors self fuel s url 0 matches = Diverge.
Proof.
  intros Hp. revert matches; induction fuel as [|fuel IH]; intros matches;
    [reflexivity|].
  cbn [literal_loop]. rewrite Hp, lower_nil.
  assert (Hf : find (lower s) [] 0 = 0).
  { unfold find. simpl.
    destruct (Z.ltb_spec (len (lower s)) 0) as [H|_];
      [pose proof (len_nonneg (lower s)); lia|].
    now destruct (lower s). }
  rewrite Hf. simpl. apply IH.
Qed.

(** Where lowering keeps the length of the pattern, the literal search
    returns, and with as many matches as the lowered pattern has
    non-overlapping occurrences in the lowered text. *)
Lemma literal_count_when_pattern_keeps_length (fuel : nat) (text : str)
    (url : value) :
  is_regex self = false -> pattern self <> [] ->
  length (lower (pattern self)) = length (pattern self) ->
  (length (lower text) < fuel)%nat ->
  exists matches,
    search_in_text colors self fuel (VStr text) url = Ok matches /\
    length matches = count_nonoverlapping (lower (pattern self)) (lower text).
Proof.
  intros Hr Hp Hl Hf.
  rewrite search_in_text_literal, literal_loop_spans by assumption.
  assert (Hlp : lower (pattern self) <> []).
  { intros E. rewrite E in Hl. destruct (pattern self); [congruence|discriminate]. }
  destruct (literal_spans_count (lower (pattern self)) (lower text) fuel 0 Hlp)
    as (spans & Hs & Hc); [lia|].
  replace (len (pattern self)) with (len (lower (pattern self)))
    by (unfold len; now rewrite Hl).
  change (Z.of_nat 0) with 0 in Hs. rewrite Hs. simpl.
  eexists; split; [reflexivity|]. now rewrite length_map.
Qed.

End Literal.

(** On ASCII text the count is the one of the occurrences: three of ["ab"],
    in any case, in ["xxabyyABzzab"]. *)
Example literal_count_ascii :
  exists matches,
    search_in_text plain_palette
      (literal_search (lit "example.har") (lit "AB") Response Text 2) 13
      (VStr (lit "xxabyyABzzab")) (VStr (lit "u")) = Ok matches /\
    length matches = 3%nat.
Proof.
  destruct (literal_count_when_pattern_keeps_length plain_palette
              (literal_search (lit "example.har") (lit "AB") Response Text 2)
              13 (lit "xxabyyABzzab") (VStr (lit "u")))
    as (matches & H1 & H2);
    [reflexivity|discriminate|reflexivity|vm_compute; lia|].
  exists matches. split; [exact H1|]. rewrite H2. vm_compute. reflexivity.
Qed.

(** C2 (the code does not do this). With an empty literal pattern the
    [while True] loop of [search_in_text] never ends, whatever the text: no
    amount of fuel gives a result; the empty pattern is not rejected before,
    so a run of [main] with pattern [""] on a file with an entry does not
    end either. *)
Theorem empty_literal_pattern_never_returns {B : Builtins} {R : RegexEngine}
    (colors : palette) (path : str) (st : direction) (f : fld) (n : Z)
    (fuel : nat) (text : str) (url : value) :
  search_in_text colors (literal_search path [] st f n) fuel (VStr text) url
    = Diverge /\
  main colors (fun _ => Json one_entry_har) fuel empty_pattern_args
    = ([EOpen (lit "example.har")], Diverge).
Proof.
  split.
  - rewrite search_in_text_literal by reflexivity.
    now apply literal_loop_empty_pattern.
  - unfold main, empty_pattern_args, init, search_entries, load_har_file.
    cbn -[search_in_text].
    change (search_in_text colors ?s fuel ?t ?u)
      with (search_in_text colors
              (literal_search (lit "example.har") [] Response Text 50) fuel t u).
    rewrite search_in_text_literal by reflexivity.
    rewrite literal_loop_empty_pattern by reflexivity. reflexivity.
Qed.

(** C3 (the code does not do this). Text U+0307 U+0130 U+0130, pattern
    U+0307 U+0130: the pattern occurs once in the text, and its lowering,
    three code points long, has one non-overlapping occurrence in the
    lowered text; the loop advances by the length of the pattern, two, in
    the lowered text and reports two matches. *)
Theorem literal_count_off_when_lowering_lengthens (k : nat) :
  let text := [dot_above; capital_I_dot; capital_I_dot] in
  let p := [dot_above; capital_I_dot] in
  let self := literal_search (lit "example.har") p Response Text 50 in
  omap (@length str)
    (search_in_text plain_palette self (3 + k) (VStr text) (VStr (lit "u")))
    = Ok 2%nat /\
  find_spans self (3 + k) (VStr text) = Ok (text, [(0, 2); (2, 4)]) /\
  count_nonoverlapping (lower p) (lower text) = 1%nat /\
  count_caseless_skip p 0 text = 1%nat.
Proof. repeat split; vm_compute; reflexivity. Qed.

(** C4 (the code does not do this). Text U+0130 x, pattern x: the lowered
    text is three code points long and has the pattern at index 2, the text
    has it at index 1; the span (2, 3) is taken in the text, where it is
    empty, so the markers wrap the empty string after the x and not the
    matched x. *)
Theorem highlight_off_when_lowering_lengthens (k : nat) :
  let text := capital_I_dot :: lit "x" in
  let self := literal_search (lit "example.har") (lit "x") Response Text 50 in
  find_spans self (2 + k) (VStr text) = Ok (text, [(2, 3)]) /\
  search_in_text colorama_palette self (2 + k) (VStr text) (VStr (lit "u"))
    = Ok [match_record colorama_palette (VStr (lit "u"))
            (text ++ BLUE colorama_palette ++ [] ++ RESET colorama_palette)] /\
  slice text (Some 2) (Some 3) = [] /\
  slice text (Some 1) (Some 2) = lit "x".
Proof. repeat split; vm_compute; reflexivity. Qed.

(** ** Searching the URL *)

Lemma startswith_spec (p s : str) :
  startswith p s = true <-> exists b, s = p ++ b.
Proof.
  revert s; induction p as [|a p IH]; intros s; simpl.
  - split; [intros _; now exists s|trivial].
  - destruct s as [|c s].
    + split; [discriminate|intros [b Hb]; discriminate].
    + rewrite andb_true_iff, N.eqb_eq, IH. split.
      * intros [-> [b ->]]. now exists b.
      * intros [b Hb]. injection Hb as -> ->. split; [reflexivity|now exists b].
Qed.

(** [sub in s] holds exactly when [sub] is a piece of [s]. *)
Lemma str_contains_spec (p s : str) :
  str_contains p s = true <-> exists a b, s = a ++ p ++ b.
Proof.
  induction s as [|c s IH]; simpl.
  - rewrite orb_false_r, startswith_spec. split.
    + intros [b Hb]. now exists [], b.
    + intros (a & b & H). destruct a; [now exists b|discriminate].
  - rewrite orb_true_iff, startswith_spec, IH. split.
    + intros [[b Hb]|(a & b & H)].
      * now exists [], b.
      * exists (c :: a), b. now rewrite H.
    + intros (a & b & H). destruct a as [|x a].
      * left. now exists b.
      * right. injection H as _ H. now exists a, b.
Qed.

(** C7. With field url and direction request, an entry whose URL is the
    string [u] is tested once: whether the lowered pattern is a piece of the
    lowered URL (or whether the regular expression's [search] finds a match
    in the URL).  A URL that passes gives exactly one match record, the URL
    line and the whole URL between the markers, with no context window:
    neither [context_chars] nor the number of occurrences takes part; a URL
    that does not pass gives none. *)
Theorem url_search_flags_whole_url {B : Builtins} {R : RegexEngine}
    (colors : palette) (self : HARSearch) (fuel : nat)
    (entry request : value) (u : str) :
  field self = Url -> search_type self = Request -> regex_ready self ->
  getitem entry (lit "request") = Ok request ->
  getitem request (lit "url") = Ok (VStr u) ->
  search_entry colors self fuel entry
  = Ok (if url_found self u then [whole_url_record colors u] else []).
Proof.
  intros Hf Hd Hr He Hu. unfold search_entry, url_found.
  rewrite He. cbn [obind]. rewrite Hu. cbn [obind].
  rewrite Hd. cbn [direction_key]. rewrite He. cbn [obind].
  rewrite Hf. cbn [fld_eqb direction_eqb andb].
  unfold match_record, whole_url_record. cbn [format].
  destruct (is_regex self) eqn:E.
  - destruct (Hr E) as [rx ->].
    destruct (re_search rx u); reflexivity.
  - destruct (str_contains _ _); reflexivity.
Qed.

Lemma url_search_flags_whole_url_witness :
  search_entry plain_palette
    (literal_search (lit "example.har") (lit "Example.COM") Request Url 50)
    0 example_entry
  = Ok [lit "URL: http://example.com/api" ++ [10%N]
        ++ lit "http://example.com/api"].
Proof.
  exact (url_search_flags_whole_url plain_palette
           (literal_search (lit "example.har") (lit "Example.COM") Request Url 50)
           0 example_entry (side "http://example.com/api" [] "")
           (lit "http://example.com/api")
           eq_refl eq_refl (fun H => False_ind _ (diff_false_true H))
           eq_refl eq_refl).
Defined.

(** ** Entries without headers or body text *)

Section MissingFields.

Context {B : Builtins} {R : RegexEngine}.
Variable colors : palette.
Variable self : HARSearch.

Lemma search_in_text_none (fuel : nat) (url : value) :
  search_in_text colors self fuel VNone url
  = search_in_text colors self fuel (VStr []) url.
Proof. reflexivity. Qed.




End MissingFields.




(** ** Entries of the wrong shape *)

Section Shapes.

Context {B : Builtins} {R : RegexEngine}.
Variable colors : palette.
Variable self : HARSearch.
Hypothesis Hvalid : valid_config self.

Lemma ill_shaped_entry_raises (fuel : nat) (entry : value) :
  well_shaped (search_type self) entry = false ->
  exists e, shape_error e /\ search_entry colors self fuel entry = Raise e.
Proof.
  unfold well_shaped, search_entry, shape_error, getitem.
  destruct entry as [| | | | |?|e]; try (eexists; split; [|reflexivity]; tauto).
  destruct (lookup (lit "request") e) as [request|] eqn:Er;
    [|eexists; split; [|reflexivity]; tauto].
  destruct request as [| | | | |?|r];
    try (eexists; split; [|reflexivity]; tauto).
  cbn [obind].
  destruct (lookup (lit "url") r) as [url|];
    [|eexists; split; [|reflexivity]; tauto].
  cbn [obind].
  destruct (lookup (direction_key (search_type self)) e) as [target|] eqn:Et;
    [|eexists; split; [|reflexivity]; tauto].
  cbn [obind].
  destruct target as [| | | | |?|t]; try discriminate; intros _;
    (destruct (field self) eqn:Ef;
     [ rewrite (Hvalid Ef) in Et; cbn [direction_key] in Et;
       rewrite Er in Et; discriminate
     | cbn [fld_eqb andb dict_get obind]; eexists; split; [|reflexivity]; tauto
     | cbn [fld_eqb andb dict_get obind]; eexists; split; [|reflexivity]; tauto ]).
Qed.

Lemma extend_each_ok_all {A C : Type} (f : A -> outcome (list C))
    (xs : list A) (acc out : list C) :
  extend_each f xs acc = Ok out -> Forall (fun x => exists ys, f x = Ok ys) xs.
Proof.
  revert acc; induction xs as [|x xs IH]; intros acc H; constructor.
  - cbn [extend_each] in H. destruct (f x); try discriminate. now eexists.
  - cbn [extend_each] in H. destruct (f x); try discriminate. eapply IH, H.
Qed.

Lemma completed_search_all_well_shaped (fuel : nat) (entries : list value)
    (acc out : list str) :
  extend_each (search_entry colors self fuel) entries acc = Ok out ->
  forallb (well_shaped (search_type self)) entries = true.
Proof.
  intros H. apply extend_each_ok_all in H. rewrite forallb_forall.
  rewrite Forall_forall in H. intros x Hx.
  destruct (H x Hx) as [ys Hys].
  destruct (well_shaped (search_type self) x) eqn:E; [reflexivity|].
  destruct (ill_shaped_entry_raises fuel x E) as (e & _ & He). congruence.
Qed.

End Shapes.

Section Run.

Context {B : Builtins} {R : RegexEngine}.
Variable colors : palette.
Variable fs : str -> file.
Variable self : HARSearch.

(** On a file that parses to a document with [log.entries], [search_entries]
    opens the file, prints nothing and goes through the entries. *)
Lemma search_entries_on_json (fuel : nat) (doc : value) (entries : list value) :
  fs (har_file self) = Json doc ->
  missing_log_or_entries doc = Ok false ->
  log_entries doc = Ok entries ->
  search_entries colors fs self fuel
  = ([EOpen (har_file self)],
     extend_each (search_entry colors self fuel) entries []).
Proof.
  intros Hfs Hm He. unfold search_entries, load_har_file.
  rewrite Hfs. cbn [bind ret lift app]. rewrite Hm. cbn [bind ret lift app].
  rewrite He. cbn [lift app]. now destruct (extend_each _ _ _).
Qed.

Lemma extend_each_raises {A C : Type} (f : A -> outcome (list C))
    (good : list A) (bad : A) (rest : list A) (acc : list C) (e : exn) :
  Forall (fun x => exists ys, f x = Ok ys) good -> f bad = Raise e ->
  extend_each f (good ++ bad :: rest) acc = Raise e.
Proof.
  intros Hg Hb. revert acc; induction Hg as [|x good [ys Hx] _ IH]; intros acc;
    cbn [extend_each app].
  - now rewrite Hb.
  - rewrite Hx. cbn [obind]. apply IH.
Qed.

End Run.

(** C10 (as the code has it). [search_entries] reads [entry["request"]["url"]]
    and [entry[search_type]] with no guard.  With a configuration [main]
    accepts, an entry that is not an object holding a [request] object with
    a [url] and an object under the searched direction raises [KeyError],
    [TypeError] or [AttributeError]; so a search that returns has met only
    entries of that shape, and one that meets an entry of another shape,
    after entries that went well, ends in that exception with nothing
    printed. *)
Theorem unguarded_entry_access {B : Builtins} {R : RegexEngine}
    (colors : palette) (fs : str -> file) (self : HARSearch) (fuel : nat) :
  valid_config self ->
  (forall entry, well_shaped (search_type self) entry = false ->
     exists e, shape_error e /\ search_entry colors self fuel entry = Raise e) /\
  (forall doc entries matches,
     fs (har_file self) = Json doc ->
     missing_log_or_entries doc = Ok false ->
     log_entries doc = Ok entries ->
     snd (search_entries colors fs self fuel) = Ok matches ->
     forallb (well_shaped (search_type self)) entries = true) /\
  (forall doc good bad rest,
     fs (har_file self) = Json doc ->
     missing_log_or_entries doc = Ok false ->
     log_entries doc = Ok (good ++ bad :: rest) ->
     Forall (fun x => exists ys, search_entry colors self fuel x = Ok ys) good ->
     well_shaped (search_type self) bad = false ->
     exists e, shape_error e /\
       search_entries colors fs self fuel = ([EOpen (har_file self)], Raise e)).
Proof.
  intros Hv. split; [|split].
  - intros entry. now apply ill_shaped_entry_raises.
  - intros doc entries matches Hfs Hm He H.
    rewrite (search_entries_on_json colors fs self fuel doc entries Hfs Hm He) in H.
    eapply completed_search_all_well_shaped; eassumption.
  - intros doc good bad rest Hfs Hm He Hg Hb.
    destruct (ill_shaped_entry_raises colors self Hv fuel bad Hb) as (e & He1 & He2).
    exists e. split; [exact He1|].
    rewrite (search_entries_on_json colors fs self fuel doc _ Hfs Hm He).
    now rewrite (extend_each_raises _ good bad rest [] e Hg He2).
Qed.

Lemma unguarded_entry_access_witness :
  exists e, shape_error e /\
    search_entries plain_palette
      (fun _ => Json (har [example_entry; string_response_entry]))
      (literal_search (lit "example.har") (lit "hello") Response Text 50) 7
    = ([EOpen (lit "example.har")], Raise e).
Proof.
  refine (proj2 (proj2 (unguarded_entry_access plain_palette
            (fun _ => Json (har [example_entry; string_response_entry]))
            (literal_search (lit "example.har") (lit "hello") Response Text 50)
            7 _))
          (har [example_entry; string_response_entry])
          [example_entry] string_response_entry [] eq_refl eq_refl eq_refl _ eq_refl).
  - intros H; discriminate H.
  - constructor; [|constructor]. eexists. vm_compute. reflexivity.
Defined.

(** C10, as stated, fails on the kind of the exception: under [-res -headers]
    an entry whose [response] is a string passes both unguarded reads, and
    [target.get] then raises [AttributeError], neither [KeyError] nor
    [TypeError]. *)
Lemma string_response_raises_attribute_error :
  well_shaped Response string_response_entry = false /\
  search_entry plain_palette
    (literal_search (lit "example.har") (lit "hello") Response Headers 50)
    1 string_response_entry = Raise AttributeError /\
  AttributeError <> KeyError /\ AttributeError <> TypeError.
Proof. repeat split; try (vm_compute; reflexivity); discriminate. Qed.

(** ** The process as a whole *)

(** C1 (the code does not do this). When the parsed document has no [log]
    or no [log.entries], with arguments that pass the checks of [main] and a
    pattern that compiles, [search_entries] prints its error line and
    returns an empty list; [main] takes that for a search without matches,
    prints "No matches found." as a second line and returns: the exit status
    is 0, where a missing file and invalid JSON exit with status 1. *)
Theorem missing_keys_exit_zero {B : Builtins} {R : RegexEngine}
    (colors : palette) (fs : str -> file) (fuel : nat) (args : Namespace)
    (st : direction) (f : fld) (doc : value) :
  args_search_type args = Some st -> args_field args = Some f ->
  (f = Url -> st = Request) ->
  (args_regex args = true -> exists rx, re_compile (args_pattern args) = inl rx) ->
  fs (args_har_file args) = Json doc ->
  missing_log_or_entries doc = Ok true ->
  main colors fs fuel args
    = ([EOpen (args_har_file args); EPrint missing_keys_message;
        EPrint (lit "No matches found.")], Ok tt) /\
  exit_code (main colors fs fuel args) = Some 0.
Proof.
  intros Hst Hf Hv Hr Hfs Hm.
  assert (E : main colors fs fuel args
    = ([EOpen (args_har_file args); EPrint missing_keys_message;
        EPrint (lit "No matches found.")], Ok tt)).
  { unfold main. rewrite Hst, Hf.
    assert (Hg : fld_eqb f Url && negb (direction_eqb st Request) = false).
    { destruct f; try reflexivity. now rewrite (Hv eq_refl). }
    rewrite Hg. unfold init.
    destruct (args_regex args);
      [destruct (Hr eq_refl) as [rx ->]|];
      unfold search_entries, load_har_file; cbn [bind ret app har_file];
      rewrite Hfs; cbn [bind ret lift app]; rewrite Hm; reflexivity. }
  now rewrite E.
Qed.

Lemma missing_keys_exit_zero_witness :
  exit_code (main colorama_palette (fun _ => Json (VDict [])) 1 text_search_args)
  = Some 0.
Proof.
  refine (proj2 (missing_keys_exit_zero colorama_palette
            (fun _ => Json (VDict [])) 1 text_search_args Response Text
            (VDict []) eq_refl eq_refl _ _ eq_refl eq_refl));
    intros H; discriminate H.
Defined.

(** The sibling failures of [load_har_file] exit with status 1. *)
Lemma absent_file_exit_one {B : Builtins} {R : RegexEngine} :
  exit_code (main colorama_palette (fun _ => Absent) 1 text_search_args) = Some 1 /\
  exit_code (main colorama_palette (fun _ => NotJson) 1 text_search_args) = Some 1.
Proof. split; reflexivity. Qed.

(** C6. When the parsed arguments have field [url] and direction
    [response], [main] prints one error line and exits with status 1 before
    it builds the search object: no file is opened, whatever the files are. *)
Theorem url_with_response_rejected {B : Builtins} {R : RegexEngine}
    (colors : palette) (fs : str -> file) (fuel : nat) (args : Namespace) :
  args_field args = Some Url -> args_search_type args = Some Response ->
  main colors fs fuel args
    = ([EPrint (lit "Error: -url can only be used with -req")],
       Raise (SystemExit 1)) /\
  exit_code (main colors fs fuel args) = Some 1 /\
  opened (trace (main colors fs fuel args)) = [].
Proof.
  intros Hf Hst.
  assert (E : main colors fs fuel args
    = ([EPrint (lit "Error: -url can only be used with -req")],
       Raise (SystemExit 1)))
    by (unfold main; rewrite Hst, Hf; reflexivity).
  now rewrite E.
Qed.

Lemma url_with_response_rejected_witness :
  opened (trace (main colorama_palette (fun _ => Json one_entry_har) 1
                   url_response_args)) = [].
Proof.
  exact (proj2 (proj2 (url_with_response_rejected colorama_palette
           (fun _ => Json one_entry_har) 1 url_response_args eq_refl eq_refl))).
Defined.

(** ** Where lowering works character by character *)

Lemma find_from_found (p t : str) (i r : Z) :
  find_from p t i = r -> r <> -1 -> 0 <= i ->
  exists k, (k <= length t)%nat /\ r = i + Z.of_nat k /\
            startswith p (skipn k t) = true.
Proof.
  revert i; induction t as [|c t IH]; intros i; cbn [find_from].
  - destruct (startswith p []) eqn:E; intros <- Hr Hi; [|lia].
    exists O. repeat split; try assumption; simpl; lia.
  - destruct (startswith p (c :: t)) eqn:E; intros Hf Hr Hi.
    + exists O. subst r. repeat split; try assumption; simpl; lia.
    + destruct (IH (i + 1) Hf Hr) as (k & Hk & -> & Hs); [lia|].
      exists (S k). repeat split; try assumption; simpl; lia.
Qed.

Lemma startswith_firstn (p s : str) :
  startswith p s = true ->
  (length p <= length s)%nat /\ firstn (length p) s = p.
Proof.
  rewrite startswith_spec. intros [b ->]. rewrite length_app. split; [lia|].
  rewrite firstn_app, Nat.sub_diag, firstn_all. simpl. apply app_nil_r.
Qed.

(** What [find] found is there: a piece of [s] equal to [sub]. *)
Lemma find_found (s sub : str) (start pos : Z) :
  find s sub start = pos -> pos <> -1 -> 0 <= start ->
  start <= pos /\ pos + len sub <= len s /\
  slice s (Some pos) (Some (pos + len sub)) = sub.
Proof.
  unfold find. intros Hf Hp Hs.
  destruct (Z.ltb_spec start 0) as [?|_]; [lia|].
  destruct (Z.ltb_spec (len s) start) as [?|Hin]; [congruence|].
  destruct (find_from_found _ _ _ _ Hf Hp Hs) as (k & Hk & -> & Hsw).
  rewrite length_skipn in Hk.
  apply startswith_firstn in Hsw. destruct Hsw as [Hl Hfirst].
  rewrite !length_skipn in Hl. rewrite skipn_skipn in Hfirst. unfold len in *.
  repeat split; try lia.
  rewrite slice_inside by (unfold len; lia).
  replace (Z.to_nat (start + Z.of_nat k + Z.of_nat (length sub)
                     - (start + Z.of_nat k))) with (length sub) by lia.
  replace (Z.to_nat (start + Z.of_nat k)) with (k + Z.to_nat start)%nat by lia.
  exact Hfirst.
Qed.

Lemma literal_spans_found (fuel : nat) (s p : str) (m start_pos : Z)
    (spans : list (Z * Z)) :
  literal_spans fuel s p m start_pos = Ok spans -> 0 <= start_pos -> 0 <= m ->
  Forall (fun span => 0 <= fst span /\ snd span = fst span + m /\
                      fst span + len p <= len s /\
                      slice s (Some (fst span)) (Some (fst span + len p)) = p)
    spans.
Proof.
  revert start_pos spans; induction fuel as [|fuel IH]; intros st spans;
    [discriminate|].
  cbn [literal_spans]. intros H Hst Hm.
  destruct (Z.eqb_spec (find s p st) (-1)) as [_|Hne].
  - injection H as <-. constructor.
  - destruct (literal_spans fuel s p m _) as [rest| |] eqn:E; try discriminate.
    injection H as <-.
    destruct (find_found s p st _ eq_refl Hne Hst) as (H1 & H2 & H3).
    constructor; [cbn [fst snd]; repeat split; trivial; lia|].
    apply (IH _ _ E); lia.
Qed.

Section PerCharacter.

Context {B : Builtins} {R : RegexEngine}.
Variable colors : palette.
Variable self : HARSearch.

(** Lowering goes character by character and keeps the length: true of
    ASCII text, not of all Unicode text. *)
Hypothesis lower_app : forall a b, lower (a ++ b) = lower a ++ lower b.
Hypothesis lower_same_length : forall s, length (lower s) = length s.

Lemma lower_firstn (k : nat) (s : str) : lower (firstn k s) = firstn k (lower s).
Proof.
  rewrite <- (firstn_skipn k s) at 2. rewrite lower_app, firstn_app.
  rewrite lower_same_length, length_firstn.
  destruct (Nat.le_ge_cases k (length s)) as [H|H].
  - rewrite Nat.min_l, Nat.sub_diag by exact H. simpl. rewrite app_nil_r.
    apply eq_sym, firstn_all2. rewrite lower_same_length, length_firstn. lia.
  - rewrite (skipn_all2 s H), lower_nil, firstn_nil, app_nil_r.
    apply eq_sym, firstn_all2. rewrite lower_same_length, length_firstn. lia.
Qed.

Lemma lower_skipn (k : nat) (s : str) : lower (skipn k s) = skipn k (lower s).
Proof.
  assert (E : lower s = lower (firstn k s) ++ lower (skipn k s))
    by now rewrite <- lower_app, firstn_skipn.
  rewrite E, skipn_app, lower_same_length, length_firstn.
  rewrite (skipn_all2 (lower (firstn k s)))
    by (rewrite lower_same_length, length_firstn; lia).
  destruct (Nat.le_ge_cases k (length s)) as [H|H].
  - rewrite Nat.min_l, Nat.sub_diag by exact H. reflexivity.
  - rewrite (skipn_all2 s H), lower_nil, skipn_nil. reflexivity.
Qed.

Lemma lower_slice (s : str) (a b : option Z) :
  lower (slice s a b) = slice (lower s) a b.
Proof.
  unfold slice, len. now rewrite lower_same_length, lower_firstn, lower_skipn.
Qed.

(** Under that assumption the literal search does what C3 and C4 say: every
    span it finds lies in the text, the piece of the text between the
    markers lowers to the lowered pattern, and the snippet without the
    markers is the context window. *)
Lemma literal_highlight_when_lowering_per_character (fuel : nat) (text : str)
    (found : str * list (Z * Z)) :
  is_regex self = false -> 0 <= context_chars self ->
  find_spans self fuel (VStr text) = Ok found ->
  fst found = text /\
  Forall (fun span =>
      let matched := slice text (Some (fst span)) (Some (snd span)) in
      0 <= fst span <= snd span /\ snd span <= len text /\
      lower matched = lower (pattern self) /\
      exists before after,
        highlight colors self text (fst span) (snd span)
          = before ++ BLUE colors ++ matched ++ RESET colors ++ after /\
        before ++ matched ++ after
          = context_window self text (fst span) (snd span))
    (snd found).
Proof.
  intros Hr Hn. unfold find_spans. rewrite Hr, search_text_of_str.
  destruct (literal_spans _ _ _ _ _) as [spans| |] eqn:E; try discriminate.
  intros H. injection H as <-. split; [reflexivity|]. cbn [snd].
  apply literal_spans_found in E; [|lia|apply len_nonneg].
  assert (Hlp : len (lower (pattern self)) = len (pattern self))
    by (unfold len; now rewrite lower_same_length).
  assert (Hlt : len (lower text) = len text)
    by (unfold len; now rewrite lower_same_length).
  rewrite Hlp, Hlt in E.
  eapply Forall_impl; [|exact E]. intros [a b]. cbn [fst snd].
  intros (Ha & -> & Hb & Hs).
  pose proof (len_nonneg (pattern self)) as Hp.
  repeat split; try lia.
  - now rewrite lower_slice.
  - eexists _, _. split.
    + apply highlight_parts; lia.
    + unfold context_window. rewrite !slice_app by lia. reflexivity.
Qed.

End PerCharacter.

Lemma ascii_lower_per_character :
  (forall a b, @lower ascii_builtins (a ++ b)
               = @lower ascii_builtins a ++ @lower ascii_builtins b) /\
  (forall s, length (@lower ascii_builtins s) = length s).
Proof. split; intros; [apply map_app|apply length_map]. Qed.

(** With ASCII lowering, what is between the markers is the match. *)
Example literal_highlight_ascii :
  let text := lit "xxabyyAB" in
  Forall (fun span =>
            ascii_lower (slice text (Some (fst span)) (Some (snd span)))
            = lit "ab")
    [(2, 4); (6, 8)].
Proof.
  intros text.
  destruct (literal_highlight_when_lowering_per_character
              (B := ascii_builtins) plain_palette
              (literal_search (lit "example.har") (lit "AB") Response Text 2)
              (proj1 ascii_lower_per_character)
              (proj2 ascii_lower_per_character)
              9 text (text, [(2, 4); (6, 8)]) eq_refl)
    as [_ H]; [cbn; lia|vm_compute; reflexivity|].
  eapply Forall_impl; [|exact H]. intros span (_ & _ & E & _). exact E.
Qed.

Lemma context_window_bounded_witness :
  context_window (literal_search (lit "example.har") (lit "de") Response Text 2)
    (lit "abcdefgh") 3 5 = lit "bcdefg".
Proof.
  refine (eq_trans (proj1 (context_window_bounded
            (literal_search (lit "example.har") (lit "de") Response Text 2)
            (lit "abcdefgh") 3 5 _ _ _)) eq_refl);
    cbn; lia.
Defined.

(** ** The scenarios of the specification, run *)

(** Pattern ["example.com"], literal, [-req -url], one entry with URL
    ["http://example.com/api"]: one match, the whole URL highlighted. *)
Example scenario_url :
  main colorama_palette (fun _ => Json one_entry_har) 1
    {| args_har_file := lit "example.har"; args_pattern := lit "example.com";
       args_regex := false; args_search_type := Some Request;
       args_field := Some Url; args_context := 50 |}
  = ([EOpen (lit "example.har");
      EPrint (whole_url_record colorama_palette (lit "http://example.com/api"))],
     Ok tt).
Proof. vm_compute. reflexivity. Qed.

(** Pattern ["pass.*"], regular expression, context 10, on the body
    ["...your password: secret123 end..."]: one match from [password] to the
    end of the text, with 8 characters before it, all there are. *)
Example scenario_regex :
  re_compile (lit "pass.*")
    = inl [One (Lit 112%N); One (Lit 97%N); One (Lit 115%N); One (Lit 115%N);
           Many Dot] /\
  let self :=
    {| har_file := lit "example.har"; pattern := lit "pass.*"; is_regex := true;
       search_type := Response; field := Text; context_chars := 10;
       regex := Some [One (Lit 112%N); One (Lit 97%N); One (Lit 115%N);
                      One (Lit 115%N); Many Dot] |} in
  let body := lit "...your password: secret123 end..." in
  find_spans self 1 (VStr body) = Ok (body, [(8, 34)]) /\
  omap (map show)
    (search_in_text plain_palette self 1 (VStr body) (VStr (lit "u")))
  = Ok ["URL: u" ++ String (ascii_of_N 10) "...your password: secret123 end..."]%string.
Proof. repeat split; vm_compute; reflexivity. Qed.

(** A document with no entry: "No matches found." and exit status 0. *)
Example scenario_no_entries :
  main colorama_palette (fun _ => Json (har [])) 1 text_search_args
    = ([EOpen (lit "example.har"); EPrint (lit "No matches found.")], Ok tt) /\
  exit_code (main colorama_palette (fun _ => Json (har [])) 1 text_search_args)
    = Some 0.
Proof. split; vm_compute; reflexivity. Qed.

(** A file that is not JSON: one error line and exit status 1. *)
Example scenario_not_json :
  main colorama_palette (fun _ => NotJson) 1 text_search_args
    = ([EOpen (lit "example.har");
        EPrint (lit "Error: 'example.har' is not a valid JSON file.")],
       Raise (SystemExit 1)).
Proof. vm_compute. reflexivity. Qed.

(** Two matches are printed with one separator between them and none after
    the last. *)
Example scenario_separator :
  print_results [lit "first"; lit "second"]
  = ([EPrint (lit "first"); EPrint separator; EPrint (lit "second")], Ok tt).
Proof. vm_compute. reflexivity. Qed.

(** ** Further properties: printing and the checks of [main] *)

Lemma print_from_intersperse (i n : Z) (matches : list str) :
  n = i + Z.of_nat (length matches) ->
  print_from i n matches = (map EPrint (intersperse separator matches), Ok tt).
Proof.
  revert i; induction matches as [|m matches IH]; intros i Hn; [reflexivity|].
  cbn [print_from]. rewrite (IH (i + 1)) by (cbn [length] in Hn; lia).
  destruct matches as [|m' matches].
  - cbn [length] in Hn. replace (i =? n - 1) with true
      by (symmetry; apply Z.eqb_eq; lia). reflexivity.
  - cbn [length] in Hn. replace (i =? n - 1) with false
      by (symmetry; apply Z.eqb_neq; lia). reflexivity.
Qed.

Lemma printed_prints (lines : list str) : printed (map EPrint lines) = lines.
Proof. induction lines as [|l lines IH]; simpl; [reflexivity|now rewrite IH]. Qed.

Lemma length_intersperse {A} (sep : A) (xs : list A) :
  length (intersperse sep xs) = (2 * length xs - 1)%nat.
Proof.
  induction xs as [|x xs IH]; [reflexivity|].
  destruct xs as [|y xs]; [reflexivity|].
  change (intersperse sep (x :: y :: xs))
    with (x :: sep :: intersperse sep (y :: xs)).
  cbn [length] in *. rewrite IH. lia.
Qed.

(** X1. [print_results] prints the matches in order with the separator line
    between two neighbours and none after the last: for [n] matches, [n]
    match blocks and [n - 1] separators, nothing for no match. *)
Theorem print_results_intersperses (matches : list str) :
  print_results matches = (map EPrint (intersperse separator matches), Ok tt) /\
  length (printed (trace (print_results matches)))
    = (2 * length matches - 1)%nat.
Proof.
  assert (E : print_results matches
              = (map EPrint (intersperse separator matches), Ok tt))
    by (apply print_from_intersperse; lia).
  split; [exact E|]. rewrite E. cbn [trace fst].
  now rewrite printed_prints, length_intersperse.
Qed.

Section Checks.

Context {B : Builtins} {R : RegexEngine}.
Variable colors : palette.
Variable fs : str -> file.

(** X2. Without [-req] or [-res], and then without a field flag, [main]
    prints the one line that names the missing flag and exits with status 1
    before any file is opened; the direction is checked first. *)
Theorem missing_flag_rejected (fuel : nat) (args : Namespace) :
  (args_search_type args = None ->
   main colors fs fuel args
   = ([EPrint (lit "Error: You must specify either -req or -res")],
      Raise (SystemExit 1))) /\
  (forall st, args_search_type args = Some st -> args_field args = None ->
   main colors fs fuel args
   = ([EPrint (lit "Error: You must specify one of -url, -headers, or -text")],
      Raise (SystemExit 1))) /\
  (args_search_type args = None \/ args_field args = None ->
   exit_code (main colors fs fuel args) = Some 1 /\
   opened (trace (main colors fs fuel args)) = [] /\
   length (printed (trace (main colors fs fuel args))) = 1%nat).
Proof.
  unfold main. repeat split.
  - intros ->. reflexivity.
  - intros st -> ->. reflexivity.
  - destruct H as [-> | H]; [reflexivity|].
    destruct (args_search_type args); [rewrite H|]; reflexivity.
  - destruct H as [-> | H]; [reflexivity|].
    destruct (args_search_type args); [rewrite H|]; reflexivity.
  - destruct H as [-> | H]; [reflexivity|].
    destruct (args_search_type args); [rewrite H|]; reflexivity.
Qed.

Lemma main_accepted (fuel : nat) (args : Namespace) (st : direction) (f : fld) :
  accepted args st f ->
  main colors fs fuel args
  = (har_search <- init (args_har_file args) (args_pattern args)
                     (args_regex args) st f (args_context args) ;;
     matches <- search_entries colors fs har_search fuel ;;
     match matches with
     | [] => print (lit "No matches found.")
     | _ :: _ => print_results matches
     end)%proc.
Proof.
  intros (Hst & Hf & Hv). unfold main. rewrite Hst, Hf.
  assert (Hg : fld_eqb f Url && negb (direction_eqb st Request) = false).
  { destruct f; try reflexivity. now rewrite (Hv eq_refl). }
  now rewrite Hg.
Qed.




End Checks.

Lemma missing_flag_rejected_witness :
  exit_code (main colorama_palette (fun _ => Json one_entry_har) 1
    {| args_har_file := lit "example.har"; args_pattern := lit "x";
       args_regex := false; args_search_type := Some Request;
       args_field := None; args_context := 50 |}) = Some 1.
Proof.
  refine (proj1 (proj2 (proj2 (missing_flag_rejected colorama_palette
            (fun _ => Json one_entry_har) 1 _)) _)).
  right. reflexivity.
Defined.



(** ** Further properties: what a search raises and what [main] prints *)

Lemma getitem_raises (v : value) (k : str) (e : exn) :
  getitem v k = Raise e -> e = KeyError \/ e = TypeError.
Proof.
  destruct v; cbn; try (intros [= <-]; now right).
  destruct (lookup k d); [discriminate|]. intros [= <-]. now left.
Qed.

Lemma dict_get_raises (v : value) (k : str) (d : value) (e : exn) :
  dict_get v k d = Raise e -> e = AttributeError.
Proof. destruct v; cbn; congruence. Qed.

Lemma iterate_raises (v : value) (e : exn) :
  iterate v = Raise e -> e = TypeError.
Proof. destruct v; cbn; congruence. Qed.

Lemma map_each_raises {A C} (f : A -> outcome C) (xs : list A) (e : exn) :
  map_each f xs = Raise e -> exists x, In x xs /\ f x = Raise e.
Proof.
  induction xs as [|x xs IH]; cbn [map_each]; [discriminate|].
  destruct (f x) eqn:E; cbn [obind]; try discriminate.
  - destruct (map_each f xs); cbn [obind]; try discriminate.
    intros [= <-]. destruct (IH eq_refl) as (y & Hy & Hf).
    exists y. split; [now right|exact Hf].
  - intros [= <-]. exists x. split; [now left|exact E].
Qed.

Lemma extend_each_raises_at {A C} (f : A -> outcome (list C)) (xs : list A)
    (acc : list C) (e : exn) :
  extend_each f xs acc = Raise e -> exists x, In x xs /\ f x = Raise e.
Proof.
  revert acc; induction xs as [|x xs IH]; intros acc; cbn [extend_each];
    [discriminate|].
  destruct (f x) eqn:E; cbn [obind]; try discriminate.
  - intros H. destruct (IH _ H) as (y & Hy & Hf).
    exists y. split; [now right|exact Hf].
  - intros [= <-]. exists x. split; [now left|exact E].
Qed.

Lemma literal_spans_never_raises (fuel : nat) (s p : str) (m st : Z) (e : exn) :
  literal_spans fuel s p m st <> Raise e.
Proof.
  revert st; induction fuel as [|fuel IH]; intros st; cbn [literal_spans];
    [discriminate|].
  destruct (_ =? -1); [discriminate|].
  specialize (IH (find s p st + m)).
  destruct (literal_spans fuel s p m _); cbn; congruence.
Qed.

Section Raises.

Context {B : Builtins} {R : RegexEngine}.
Variable colors : palette.
Variable self : HARSearch.

Lemma search_in_text_raises (fuel : nat) (text url : value) (e : exn) :
  search_in_text colors self fuel text url = Raise e ->
  e = TypeError \/ e = AttributeError.
Proof.
  rewrite search_in_text_spans. unfold find_spans.
  destruct (is_regex self).
  - destruct (regex self); [|cbn; intros [= <-]; now right].
    destruct (if truthy text then text else VStr []); cbn;
      try discriminate; intros [= <-]; now left.
  - destruct (if truthy text then text else VStr []); cbn;
      try (intros [= <-]; now right).
    pose proof (literal_spans_never_raises fuel (lower s)
                  (lower (pattern self)) (len (pattern self)) 0) as H.
    destruct (literal_spans _ _ _ _ _); cbn; try discriminate.
    intros [= <-]. now destruct (H e0).
Qed.

Lemma search_entry_raises (fuel : nat) (entry : value) (e : exn) :
  search_entry colors self fuel entry = Raise e -> shape_error e.
Proof.
  unfold search_entry, shape_error.
  destruct (getitem entry (lit "request")) as [request| |] eqn:E1;
    cbn [obind]; try discriminate;
    [|intros [= <-]; destruct (getitem_raises _ _ _ E1); tauto].
  destruct (getitem request (lit "url")) as [url| |] eqn:E2;
    cbn [obind]; try discriminate;
    [|intros [= <-]; destruct (getitem_raises _ _ _ E2); tauto].
  destruct (getitem entry (direction_key (search_type self))) as [target| |] eqn:E3;
    cbn [obind]; try discriminate;
    [|intros [= <-]; destruct (getitem_raises _ _ _ E3); tauto].
  destruct (fld_eqb (field self) Url && direction_eqb (search_type self) Request).
  - destruct (is_regex self).
    + destruct (regex self); [|intros [= <-]; tauto].
      destruct url; try (intros [= <-]; tauto).
      destruct (re_search _ _); discriminate.
    + destruct url; try (intros [= <-]; tauto).
      destruct (str_contains _ _); discriminate.
  - destruct (fld_eqb (field self) Headers).
    + destruct (dict_get target _ _) as [headers| |] eqn:E4;
        cbn [obind]; try discriminate;
        [|intros [= <-]; rewrite (dict_get_raises _ _ _ _ E4); tauto].
      destruct (iterate headers) as [hs| |] eqn:E5;
        cbn [obind]; try discriminate;
        [|intros [= <-]; rewrite (iterate_raises _ _ E5); tauto].
      destruct (map_each _ hs) as [lines| |] eqn:E6; cbn [obind];
        try discriminate.
      * intros H. destruct (search_in_text_raises _ _ _ _ H); tauto.
      * intros [= <-]. apply map_each_raises in E6.
        destruct E6 as (h & _ & Hh).
        destruct (getitem h (lit "name")) as [name| |] eqn:E7;
          cbn [obind] in Hh; try discriminate;
          [|injection Hh as <-; destruct (getitem_raises _ _ _ E7); tauto].
        destruct (getitem h (lit "value")) as [v| |] eqn:E8;
          cbn [obind] in Hh; try discriminate.
        injection Hh as <-; destruct (getitem_raises _ _ _ E8); tauto.
    + destruct (fld_eqb (field self) Text); [|discriminate].
      destruct (dict_get target _ _) as [c| |] eqn:E4;
        cbn [obind]; try discriminate;
        [|intros [= <-]; rewrite (dict_get_raises _ _ _ _ E4); tauto].
      destruct (dict_get c _ _) as [content| |] eqn:E5;
        cbn [obind]; try discriminate;
        [|intros [= <-]; rewrite (dict_get_raises _ _ _ _ E5); tauto].
      intros H. destruct (search_in_text_raises _ _ _ _ H); tauto.
Qed.

End Raises.

Lemma extend_each_concat {A C} (f : A -> outcome (list C)) (xs : list A)
    (yss : list (list C)) (acc : list C) :
  Forall2 (fun x ys => f x = Ok ys) xs yss ->
  extend_each f xs acc = Ok (acc ++ concat yss).
Proof.
  intros H. revert acc; induction H as [|x ys xs yss Hx _ IH]; intros acc;
    cbn [extend_each concat].
  - now rewrite app_nil_r.
  - rewrite Hx. cbn [obind]. rewrite IH. now rewrite app_assoc.
Qed.

Lemma extend_each_app {A C} (f : A -> outcome (list C)) (xs ys : list A)
    (acc : list C) :
  extend_each f (xs ++ ys) acc
  = obind (extend_each f xs acc) (extend_each f ys).
Proof.
  revert acc; induction xs as [|x xs IH]; intros acc; cbn [extend_each app obind];
    [reflexivity|].
  destruct (f x); cbn [obind]; [apply IH|reflexivity|reflexivity].
Qed.

Section Output.

Context {B : Builtins} {R : RegexEngine}.
Variable colors : palette.
Variable fs : str -> file.

Lemma init_ok (path p : str) (rx : bool) (st : direction) (f : fld) (n : Z)
    (t : list event) (self : HARSearch) :
  init path p rx st f n = (t, Ok self) -> t = [] /\ har_file self = path.
Proof.
  unfold init. destruct rx; [destruct (re_compile p)|];
    cbn; intros [= <- <-]; now split.
Qed.

(** X8. The only exceptions the search of an entry raises are [KeyError],
    [TypeError] and [AttributeError], and so for the loop over the entries
    of a document: the search itself never exits the process. *)
Theorem search_raises_shape_errors (self : HARSearch) (fuel : nat)
    (entries : list value) (acc : list str) (e : exn) :
  (forall entry, search_entry colors self fuel entry = Raise e -> shape_error e) /\
  (extend_each (search_entry colors self fuel) entries acc = Raise e ->
   shape_error e /\ exists entry, In entry entries /\
     search_entry colors self fuel entry = Raise e).
Proof.
  split; [intros entry; apply search_entry_raises|].
  intros H. destruct (extend_each_raises_at _ _ _ _ H) as (x & Hx & Hf).
  split; [exact (search_entry_raises colors self fuel x e Hf)|].
  now exists x.
Qed.

(** X6. When the search returns, [main] prints, after what the search
    printed, "No matches found." for no match and otherwise the matches with
    the separator between them, and the exit status is 0. *)
Theorem main_reports_matches (fuel : nat) (args : Namespace) (st : direction)
    (f : fld) (self : HARSearch) (t0 t : list event) (matches : list str) :
  accepted args st f ->
  init (args_har_file args) (args_pattern args) (args_regex args) st f
    (args_context args) = (t0, Ok self) ->
  search_entries colors fs self fuel = (t, Ok matches) ->
  main colors fs fuel args = (t ++ report matches, Ok tt) /\
  exit_code (main colors fs fuel args) = Some 0.
Proof.
  intros Ha Hi Hs.
  assert (E : main colors fs fuel args = (t ++ report matches, Ok tt)).
  { rewrite (main_accepted colors fs fuel args st f Ha).
    destruct (init_ok _ _ _ _ _ _ _ _ Hi) as [-> _].
    rewrite Hi. cbn [bind]. rewrite Hs. cbn [bind app].
    destruct matches as [|m matches]; [reflexivity|].
    unfold print_results. rewrite print_from_intersperse by lia. reflexivity. }
  now rewrite E.
Qed.

(** X7. When the search of some entry raises, [main] ends in that
    exception with exit status 1 and no [print] has run: the matches of the
    entries before it are lost. *)
Theorem exception_prints_nothing (fuel : nat) (args : Namespace)
    (st : direction) (f : fld) (self : HARSearch) (t0 : list event)
    (doc : value) (entries : list value) (e : exn) :
  accepted args st f ->
  init (args_har_file args) (args_pattern args) (args_regex args) st f
    (args_context args) = (t0, Ok self) ->
  fs (args_har_file args) = Json doc ->
  missing_log_or_entries doc = Ok false ->
  log_entries doc = Ok entries ->
  extend_each (search_entry colors self fuel) entries [] = Raise e ->
  main colors fs fuel args = ([EOpen (args_har_file args)], Raise e) /\
  printed (trace (main colors fs fuel args)) = [] /\
  exit_code (main colors fs fuel args) = Some 1.
Proof.
  intros Ha Hi Hfs Hm He Hx.
  destruct (init_ok _ _ _ _ _ _ _ _ Hi) as [-> Hp].
  assert (E : main colors fs fuel args
              = ([EOpen (args_har_file args)], Raise e)).
  { rewrite (main_accepted colors fs fuel args st f Ha), Hi. cbn [bind].
    rewrite <- Hp in Hfs.
    rewrite (search_entries_on_json colors fs self fuel doc entries Hfs Hm He).
    rewrite Hx, Hp. reflexivity. }
  rewrite E. repeat split.
  destruct (extend_each_raises_at _ _ _ _ Hx) as (x & _ & Hf).
  destruct (search_entry_raises colors self fuel x e Hf) as [->|[->| ->]];
    reflexivity.
Qed.

(** X9. The matches of a document are the matches of its entries, entry
    after entry in the order of the file, none dropped or merged; the file
    is opened and nothing is printed by the search. *)
Theorem matches_in_entry_order (self : HARSearch) (fuel : nat) (doc : value)
    (entries : list value) (found : list (list str)) :
  fs (har_file self) = Json doc ->
  missing_log_or_entries doc = Ok false ->
  log_entries doc = Ok entries ->
  Forall2 (fun entry ms => search_entry colors self fuel entry = Ok ms)
    entries found ->
  search_entries colors fs self fuel
  = ([EOpen (har_file self)], Ok (concat found)).
Proof.
  intros Hfs Hm He Hf.
  rewrite (search_entries_on_json colors fs self fuel doc entries Hfs Hm He).
  now rewrite (extend_each_concat _ _ found [] Hf).
Qed.

End Output.

Lemma search_raises_shape_errors_witness :
  shape_error AttributeError.
Proof.
  exact (proj1 (search_raises_shape_errors plain_palette
           (literal_search (lit "example.har") (lit "hello") Response Headers 50)
           1 [] [] AttributeError) string_response_entry eq_refl).
Defined.

Lemma main_reports_matches_witness :
  exit_code (main plain_palette (fun _ => Json one_entry_har) 6 hello_args)
  = Some 0.
Proof.
  refine (proj2 (main_reports_matches plain_palette
            (fun _ => Json one_entry_har) 6 hello_args Response Text
            (literal_search (lit "example.har") (lit "HELLO") Response Text 50)
            [] [EOpen (lit "example.har")]
            [lit "URL: http://example.com/api" ++ [10%N] ++ lit "hello"]
            _ eq_refl eq_refl)).
  repeat split. discriminate.
Defined.

Lemma exception_prints_nothing_witness :
  printed (trace (main plain_palette
    (fun _ => Json (har [example_entry; string_response_entry])) 6
    text_search_args)) = [].
Proof.
  refine (proj1 (proj2 (exception_prints_nothing plain_palette
            (fun _ => Json (har [example_entry; string_response_entry])) 6
            text_search_args Response Text
            (literal_search (lit "example.har") (lit "password") Response Text 50)
            [] (har [example_entry; string_response_entry])
            [example_entry; string_response_entry] AttributeError
            _ eq_refl eq_refl eq_refl eq_refl eq_refl))).
  repeat split. discriminate.
Defined.

Lemma matches_in_entry_order_witness :
  search_entries plain_palette (fun _ => Json (har [example_entry; example_entry]))
    (literal_search (lit "example.har") (lit "hello") Response Text 50) 6
  = ([EOpen (lit "example.har")],
     Ok [lit "URL: http://example.com/api" ++ [10%N] ++ lit "hello";
         lit "URL: http://example.com/api" ++ [10%N] ++ lit "hello"]).
Proof.
  refine (matches_in_entry_order plain_palette
            (fun _ => Json (har [example_entry; example_entry]))
            (literal_search (lit "example.har") (lit "hello") Response Text 50) 6
            (har [example_entry; example_entry]) [example_entry; example_entry]
            [[lit "URL: http://example.com/api" ++ [10%N] ++ lit "hello"];
             [lit "URL: http://example.com/api" ++ [10%N] ++ lit "hello"]]
            eq_refl eq_refl eq_refl _).
  repeat constructor.
Defined.

(** ** Further properties: the literal search *)

Lemma literal_spans_terminates (fuel : nat) (s p : str) (m st : Z) :
  p <> [] -> 1 <= m -> 0 <= st -> (Z.to_nat (len s - st) < fuel)%nat ->
  exists spans,
    literal_spans fuel s p m st = Ok spans /\
    (length spans <= Z.to_nat (len s - st))%nat.
Proof.
  intros Hp Hm. revert st; induction fuel as [|fuel IH]; intros st Hst Hf;
    [lia|].
  cbn [literal_spans].
  destruct (Z.eqb_spec (find s p st) (-1)) as [_|Hne].
  - exists []. split; [reflexivity|cbn; lia].
  - destruct (find_found s p st _ eq_refl Hne Hst) as (H1 & H2 & _).
    assert (Hlp : 1 <= len p) by (destruct p; [congruence|unfold len; cbn; lia]).
    destruct (IH (find s p st + m)) as (spans & Hs & Hl); [lia|lia|].
    rewrite Hs. eexists. split; [reflexivity|]. cbn [length]. lia.
Qed.

Lemma literal_spans_ordered (fuel : nat) (s p : str) (m st : Z)
    (spans : list (Z * Z)) :
  literal_spans fuel s p m st = Ok spans -> 0 <= st -> 0 <= m ->
  left_to_right m st spans.
Proof.
  revert st spans; induction fuel as [|fuel IH]; intros st spans;
    [discriminate|].
  cbn [literal_spans]. intros H Hst Hm.
  destruct (Z.eqb_spec (find s p st) (-1)) as [_|Hne].
  - injection H as <-. exact I.
  - destruct (literal_spans fuel s p m _) as [rest| |] eqn:E; try discriminate.
    injection H as <-.
    destruct (find_found s p st _ eq_refl Hne Hst) as (H1 & _ & _).
    cbn [left_to_right]. repeat split; [exact H1|].
    apply (IH _ _ E); lia.
Qed.

Section LiteralSearch.

Context {B : Builtins} {R : RegexEngine}.
Variable colors : palette.
Variable self : HARSearch.

Lemma lower_nonempty (p : str) : p <> [] -> lower p <> [].
Proof.
  intros Hp E. pose proof (lower_length p) as H. rewrite E in H.
  destruct p; [congruence|cbn in H; lia].
Qed.

(** X10. With a non-empty pattern the literal search of a text returns, in
    at most as many rounds of its loop as the lowered text has characters
    plus one, and reports at most one match for each character of the
    lowered text. *)
Theorem literal_search_terminates (fuel : nat) (text : str) (url : value) :
  is_regex self = false -> pattern self <> [] ->
  (length (lower text) < fuel)%nat ->
  exists matches,
    search_in_text colors self fuel (VStr text) url = Ok matches /\
    (length matches <= length (lower text))%nat.
Proof.
  intros Hr Hp Hf.
  rewrite search_in_text_literal, literal_loop_spans by assumption.
  destruct (literal_spans_terminates fuel (lower text) (lower (pattern self))
              (len (pattern self)) 0) as (spans & Hs & Hl);
    [now apply lower_nonempty
    |destruct (pattern self); [congruence|unfold len; cbn; lia]
    |lia|unfold len; lia|].
  rewrite Hs. eexists. split; [reflexivity|].
  cbn [app]. rewrite length_map. unfold len in Hl. lia.
Qed.

(** X11. The spans of the literal search are as wide as the pattern, go
    from left to right from index 0 and do not overlap: each starts at or
    after the end of the one before; and at each of them the lowered
    pattern stands in the lowered text. *)
Theorem literal_spans_left_to_right (fuel : nat) (text : str)
    (found : str * list (Z * Z)) :
  is_regex self = false ->
  find_spans self fuel (VStr text) = Ok found ->
  fst found = text /\
  left_to_right (len (pattern self)) 0 (snd found) /\
  Forall (fun span =>
      fst span + len (lower (pattern self)) <= len (lower text) /\
      slice (lower text) (Some (fst span))
        (Some (fst span + len (lower (pattern self))))
      = lower (pattern self))
    (snd found).
Proof.
  intros Hr. unfold find_spans. rewrite Hr, search_text_of_str.
  destruct (literal_spans _ _ _ _ _) as [spans| |] eqn:E; try discriminate.
  intros [= <-]. cbn [fst snd]. split; [reflexivity|]. split.
  - apply (literal_spans_ordered _ _ _ _ _ _ E); [lia|apply len_nonneg].
  - apply literal_spans_found in E; [|lia|apply len_nonneg].
    eapply Forall_impl; [|exact E]. intros span (_ & _ & H1 & H2). now split.
Qed.



(** X13. A body text that is false as a condition (null, false, 0, 0.0, an
    empty string, array or object) is searched as the empty string; a body
    text that is true as a condition and not a string raises
    [AttributeError] from the literal search and [TypeError] from the
    search with a regular expression. *)
Theorem text_truthiness (fuel : nat) (text url : value) :
  regex_ready self ->
  (truthy text = false ->
   search_in_text colors self fuel text url
   = search_in_text colors self fuel (VStr []) url) /\
  (truthy text = true -> (forall s, text <> VStr s) ->
   search_in_text colors self fuel text url
   = Raise (if is_regex self then TypeError else AttributeError)).
Proof.
  intros Hr. unfold search_in_text. split.
  - intros ->. reflexivity.
  - intros -> Hs. destruct (is_regex self) eqn:E.
    + destruct (Hr E) as [rx ->].
      destruct text; try reflexivity. now destruct (Hs s).
    + destruct text; try reflexivity. now destruct (Hs s).
Qed.

End LiteralSearch.

Lemma literal_search_terminates_witness :
  exists matches,
    search_in_text plain_palette
      (literal_search (lit "example.har") (lit "AB") Response Text 2) 13
      (VStr (lit "xxabyyABzzab")) (VStr (lit "u")) = Ok matches /\
    (length matches <= 12)%nat.
Proof.
  refine (literal_search_terminates plain_palette
            (literal_search (lit "example.har") (lit "AB") Response Text 2)
            13 (lit "xxabyyABzzab") (VStr (lit "u")) eq_refl _ _).
  - discriminate.
  - vm_compute. lia.
Defined.

Lemma literal_spans_left_to_right_witness :
  left_to_right 2 0 [(2, 4); (6, 8); (10, 12)].
Proof.
  exact (proj1 (proj2 (literal_spans_left_to_right
           (literal_search (lit "example.har") (lit "AB") Response Text 2)
           13 (lit "xxabyyABzzab")
           (lit "xxabyyABzzab", [(2, 4); (6, 8); (10, 12)])
           eq_refl eq_refl))).
Defined.


Lemma text_truthiness_witness :
  search_in_text plain_palette
    (literal_search (lit "example.har") (lit "5") Response Text 50) 6
    (VInt 5) (VStr (lit "u")) = Raise AttributeError.
Proof.
  refine (proj2 (text_truthiness plain_palette
            (literal_search (lit "example.har") (lit "5") Response Text 50) 6
            (VInt 5) (VStr (lit "u")) _) eq_refl _).
  - intros H. discriminate H.
  - intros s H. discriminate H.
Defined.

(** ** Further properties: documents, snippets and fields *)

Section Documents.

Context {B : Builtins} {R : RegexEngine}.
Variable colors : palette.
Variable fs : str -> file.
Variable self : HARSearch.

(** X14. A document that is not an object is never searched: an array or a
    string that does not hold ["log"] is reported as a file with a missing
    key and gives no match, and every other document (a number, a boolean,
    null, an array or string that holds ["log"]) ends in a [TypeError]
    with nothing printed. *)
Theorem non_object_document (fuel : nat) (doc : value) :
  fs (har_file self) = Json doc -> (forall d, doc <> VDict d) ->
  (contains (lit "log") doc = Ok false /\
   search_entries colors fs self fuel
   = ([EOpen (har_file self); EPrint missing_keys_message], Ok [])) \/
  (contains (lit "log") doc <> Ok false /\
   search_entries colors fs self fuel
   = ([EOpen (har_file self)], Raise TypeError)).
Proof.
  intros Hfs Hd. unfold search_entries, load_har_file, missing_log_or_entries.
  rewrite Hfs. cbn [bind ret lift app].
  destruct doc as [| | | | s | l | d]; try (right; split; [discriminate|reflexivity]).
  - cbn [contains]. destruct (str_contains (lit "log") s).
    + right. split; [discriminate|reflexivity].
    + left. split; reflexivity.
  - cbn [contains]. destruct (existsb _ l).
    + right. split; [discriminate|reflexivity].
    + left. split; reflexivity.
  - now destruct (Hd d).
Qed.

End Documents.

Lemma non_object_document_witness :
  search_entries plain_palette (fun _ => Json (VList [VStr (lit "log")]))
    (literal_search (lit "example.har") (lit "x") Response Text 50) 1
  = ([EOpen (lit "example.har")], Raise TypeError).
Proof.
  destruct (non_object_document plain_palette
              (fun _ => Json (VList [VStr (lit "log")]))
              (literal_search (lit "example.har") (lit "x") Response Text 50) 1
              (VList [VStr (lit "log")]) eq_refl) as [[H _]|[_ H]].
  - intros d H. discriminate H.
  - discriminate H.
  - exact H.
Defined.

Lemma map_each_ok {A C} (f : A -> outcome C) (xs : list A) (ys : list C) :
  Forall2 (fun x y => f x = Ok y) xs ys -> map_each f xs = Ok ys.
Proof.
  induction 1 as [|x y xs ys Hx _ IH]; cbn [map_each]; [reflexivity|].
  rewrite Hx. cbn [obind]. rewrite IH. reflexivity.
Qed.

Section Snippets.

Context {B : Builtins} {R : RegexEngine}.
Variable colors : palette.
Variable self : HARSearch.

(** X15. For a span inside the text and a non-negative [context_chars],
    the snippet is the text before the match, at most [context_chars]
    long, the marker, the text of the span, the marker, and the text after
    it, at most [context_chars] long: without the markers it is the context
    window, and with empty markers the snippet is the context window. *)
Theorem highlight_round_trip (text : str) (start end_ : Z) :
  0 <= context_chars self -> 0 <= start <= end_ -> end_ <= len text ->
  highlight plain_palette self text start end_
    = context_window self text start end_ /\
  exists before after,
    highlight colors self text start end_
      = before ++ BLUE colors ++ slice text (Some start) (Some end_)
        ++ RESET colors ++ after /\
    before ++ slice text (Some start) (Some end_) ++ after
      = context_window self text start end_ /\
    len before <= context_chars self /\ len after <= context_chars self.
Proof.
  intros Hn Hse He.
  assert (Hw :
    slice text (Some (Z.max 0 (start - context_chars self))) (Some start)
    ++ slice text (Some start) (Some end_)
    ++ slice text (Some end_)
         (Some (Z.min (len text) (end_ + context_chars self)))
    = context_window self text start end_)
    by (unfold context_window; rewrite !slice_app by lia; reflexivity).
  split.
  - rewrite highlight_parts by assumption. exact Hw.
  - eexists _, _. split; [apply highlight_parts; assumption|].
    split; [exact Hw|].
    rewrite !len_slice_inside by lia. lia.
Qed.

(** X18. With a regular expression the search of a text needs no loop of
    its own: whatever the fuel, it returns one match record for each span
    [finditer] gives, in the order it gives them. *)
Theorem regex_one_record_per_match (fuel : nat) (text : str) (url : value)
    (rx : Pattern) :
  is_regex self = true -> regex self = Some rx ->
  search_in_text colors self fuel (VStr text) url
    = Ok (map (render colors self text url) (finditer rx text)) /\
  omap (@length str) (search_in_text colors self fuel (VStr text) url)
    = Ok (length (finditer rx text)).
Proof.
  intros Hr Hx.
  assert (E : search_in_text colors self fuel (VStr text) url
              = Ok (map (render colors self text url) (finditer rx text))).
  { unfold search_in_text. rewrite Hr, Hx, search_text_of_str.
    now rewrite regex_loop_spans. }
  rewrite E. split; [reflexivity|]. cbn. now rewrite length_map.
Qed.

(** X16. Where lowering keeps the length of the pattern, an entry whose
    body is the string [s], searched for a non-empty literal pattern in
    field text, gives as many matches as the lowered pattern has
    non-overlapping occurrences, leftmost first, in the lowered body. *)
Theorem entry_text_match_count (fuel : nat) (entry request url : value)
    (d c : list (str * value)) (s : str) :
  field self = Text -> is_regex self = false -> pattern self <> [] ->
  length (lower (pattern self)) = length (pattern self) ->
  getitem entry (lit "request") = Ok request ->
  getitem request (lit "url") = Ok url ->
  getitem entry (direction_key (search_type self)) = Ok (VDict d) ->
  lookup (lit "content") d = Some (VDict c) ->
  lookup (lit "text") c = Some (VStr s) ->
  (length (lower s) < fuel)%nat ->
  exists matches,
    search_entry colors self fuel entry = Ok matches /\
    length matches = count_nonoverlapping (lower (pattern self)) (lower s).
Proof.
  intros Hf Hr Hp Hl He Hu Ht Hc Hs Hfuel. unfold search_entry.
  rewrite He. cbn [obind]. rewrite Hu. cbn [obind]. rewrite Ht. cbn [obind].
  rewrite Hf. cbn [fld_eqb andb dict_get]. rewrite Hc. cbn [obind dict_get].
  rewrite Hs. cbn [obind].
  now apply literal_count_when_pattern_keeps_length.
Qed.

(** X19. In field headers the text searched is one line [name: value] for
    each header, in the order of the array, joined by newlines, when every
    header is an object with a string name and a string value. *)
Theorem headers_search_text (fuel : nat) (entry request url : value)
    (d : list (str * value)) (hs : list value) (lines : list (str * str)) :
  field self = Headers ->
  getitem entry (lit "request") = Ok request ->
  getitem request (lit "url") = Ok url ->
  getitem entry (direction_key (search_type self)) = Ok (VDict d) ->
  lookup (lit "headers") d = Some (VList hs) ->
  Forall2 (fun h nv => is_header h (fst nv) (snd nv)) hs lines ->
  search_entry colors self fuel entry
  = search_in_text colors self fuel
      (VStr (join [10%N]
               (map (fun nv => header_line (fst nv) (snd nv)) lines))) url.
Proof.
  intros Hf He Hu Ht Hh Hl. unfold search_entry.
  rewrite He. cbn [obind]. rewrite Hu. cbn [obind]. rewrite Ht. cbn [obind].
  rewrite Hf. cbn [fld_eqb andb dict_get]. rewrite Hh. cbn [obind iterate].
  rewrite (map_each_ok _ hs
             (map (fun nv => header_line (fst nv) (snd nv)) lines)).
  - reflexivity.
  - clear -Hl. induction Hl as [|h nv hs lines [H1 H2] _ IH]; cbn [map];
      constructor; [|exact IH].
    rewrite H1. cbn [obind]. rewrite H2. reflexivity.
Qed.

End Snippets.

Section PerCharacterSearch.

Context {B : Builtins} {R : RegexEngine}.
Variable colors : palette.
Variable self : HARSearch.


End PerCharacterSearch.

Lemma highlight_round_trip_witness :
  highlight plain_palette
    (literal_search (lit "example.har") (lit "de") Response Text 2)
    (lit "abcdefgh") 3 5
  = context_window
      (literal_search (lit "example.har") (lit "de") Response Text 2)
      (lit "abcdefgh") 3 5.
Proof.
  refine (proj1 (highlight_round_trip colorama_palette
            (literal_search (lit "example.har") (lit "de") Response Text 2)
            (lit "abcdefgh") 3 5 _ _ _)); cbn; lia.
Defined.

Lemma regex_one_record_per_match_witness :
  omap (@length str)
    (search_in_text plain_palette (dot_star_search Response Text 50) 0
       (VStr (lit "abc")) (VStr (lit "u")))
  = Ok (length (@finditer mini_re [Many Dot] (lit "abc"))).
Proof.
  exact (proj2 (regex_one_record_per_match plain_palette
           (dot_star_search Response Text 50) 0 (lit "abc") (VStr (lit "u"))
           [Many Dot] eq_refl eq_refl)).
Defined.

Lemma entry_text_match_count_witness :
  exists matches,
    search_entry plain_palette
      (literal_search (lit "example.har") (lit "L") Response Text 1) 6
      example_entry = Ok matches /\
    length matches = count_nonoverlapping (lit "l") (lit "hello").
Proof.
  refine (entry_text_match_count plain_palette
            (literal_search (lit "example.har") (lit "L") Response Text 1) 6
            example_entry (side "http://example.com/api" [] "")
            (VStr (lit "http://example.com/api"))
            [(lit "url", VStr (lit "http://example.com/api"));
             (lit "headers", VList []);
             (lit "content", VDict [(lit "text", VStr (lit "hello"))])]
            [(lit "text", VStr (lit "hello"))] (lit "hello")
            eq_refl eq_refl _ eq_refl eq_refl eq_refl eq_refl eq_refl eq_refl _).
  - discriminate.
  - vm_compute. lia.
Defined.

Lemma headers_search_text_witness :
  search_entry plain_palette
    (literal_search (lit "example.har") (lit "accept") Request Headers 50) 30
    headers_entry
  = search_in_text plain_palette
      (literal_search (lit "example.har") (lit "accept") Request Headers 50) 30
      (VStr (lit "Host: example.com" ++ [10%N] ++ lit "Accept: */*"))
      (VStr (lit "http://example.com/api")).
Proof.
  refine (headers_search_text plain_palette
            (literal_search (lit "example.har") (lit "accept") Request Headers 50)
            30 headers_entry
            (side "http://example.com/api"
               [header "Host" "example.com"; header "Accept" "*/*"] "")
            (VStr (lit "http://example.com/api"))
            [(lit "url", VStr (lit "http://example.com/api"));
             (lit "headers",
              VList [header "Host" "example.com"; header "Accept" "*/*"]);
             (lit "content", VDict [(lit "text", VStr (lit ""))])]
            [header "Host" "example.com"; header "Accept" "*/*"]
            [(lit "Host", lit "example.com"); (lit "Accept", lit "*/*")]
            eq_refl eq_refl eq_refl eq_refl eq_refl _).
  repeat constructor.
Defined.


(** ** Further properties: the exit status *)



Section ExitStatus.

Context {B : Builtins} {R : RegexEngine}.
Variable colors : palette.
Variable fs : str -> file.






End ExitStatus.

